(** * preview-pkg: the package store (app.ts) and the publish pipeline (cli.ts)

    A shallow embedding of the two programs of the repository:
    - the Hono worker that stores and serves tarballs in an R2 bucket;
    - the [publish] command of the CLI, which rewrites manifests, packs,
      restores and uploads.

    JavaScript strings are [string]; binary buffers are [list byte]; the R2
    bucket and the JavaScript objects used as dictionaries are [gmap]s, and
    so is the [Map] of URLs, which is read by key and visited in an order
    that does not matter; the [Map] of restore functions, which is run in
    insertion order, is an association list. Calls that leave the program
    (GitHub, R2 [put], child processes, [fetch], [JSON.parse]) are answered
    by an environment record. *)

From Stdlib Require Import ZArith Ascii String.
From stdpp Require Import base option list strings gmap pretty.

Open Scope string_scope.
Open Scope list_scope.

(** ** JavaScript string primitives used by both programs *)
Module Js.

#[global] Instance byte_eq_dec : EqDecision Byte.byte := Byte.byte_eq_dec.

Definition code (a : ascii) : N := Ascii.N_of_ascii a.

Definition between (lo hi : N) (a : ascii) : bool :=
  ((lo <=? code a) && (code a <=? hi))%N.

Definition is_lower (a : ascii) : bool := between 97 122 a.
Definition is_upper (a : ascii) : bool := between 65 90 a.
Definition is_digit (a : ascii) : bool := between 48 57 a.
Definition is_dash (a : ascii) : bool := (code a =? 45)%N.

Fixpoint all_chars (P : ascii -> bool) (s : string) : bool :=
  match s with
  | EmptyString => true
  | String a s' => P a && all_chars P s'
  end.

(** [/^[...]+$/.test(s)]: at least one character, every one in the class.
    Without the [m] flag, [$] only matches at the very end of the input. *)
Definition matches_plus (P : ascii -> bool) (s : string) : bool :=
  match s with
  | EmptyString => false
  | _ => all_chars P s
  end.

(** [str.startsWith(c)] for a one-character needle. *)
Definition startsWith (c : ascii) (s : string) : bool :=
  match s with
  | String a _ => bool_decide (a = c)
  | EmptyString => false
  end.

(** [str.slice(1)] *)
Definition slice1 (s : string) : string :=
  match s with
  | String _ s' => s'
  | EmptyString => EmptyString
  end.

(** [str.slice(0, n)] *)
Fixpoint slice0 (n : nat) (s : string) : string :=
  match n, s with
  | S n', String a s' => String a (slice0 n' s')
  | _, _ => EmptyString
  end.

(** [str.split(c)] for a one-character separator: the pieces between
    separators, in order. The result is never empty ([("").split(c)] is
    [[""]]), so it is given as its first piece and the remaining ones. *)
Fixpoint split (c : ascii) (s : string) : string * list string :=
  match s with
  | EmptyString => (EmptyString, [])
  | String a s' =>
      let '(piece, rest) := split c s' in
      if bool_decide (a = c) then (EmptyString, piece :: rest)
      else (String a piece, rest)
  end.

(** White space removed by [String.prototype.trim], among the
    one-byte characters a [string] holds: TAB, LF, VT, FF, CR, SP. *)
Definition is_space (a : ascii) : bool :=
  between 9 13 a || (code a =? 32)%N.

Fixpoint trimStart (s : string) : string :=
  match s with
  | String a s' => if is_space a then trimStart s' else s
  | EmptyString => EmptyString
  end.

Fixpoint trimEnd (s : string) : string :=
  match s with
  | EmptyString => EmptyString
  | String a s' =>
      match trimEnd s' with
      | EmptyString => if is_space a then EmptyString else String a EmptyString
      | t => String a t
      end
  end.

Definition trim (s : string) : string := trimEnd (trimStart s).

(** [haystack.includes(needle)] *)
Definition includes (needle haystack : string) : bool :=
  bool_decide (is_Some (String.index 0 needle haystack)).

(** Truthiness of an optional string: [undefined] and [""] are falsy. *)
Definition truthy (o : option string) : bool :=
  match o with
  | Some (String _ _) => true
  | _ => false
  end.

(** First occurrence replaced: [s.replace(c, r)] with a one-character
    pattern. *)
Fixpoint replace1 (c : ascii) (r : string) (s : string) : string :=
  match s with
  | EmptyString => EmptyString
  | String a s' => if bool_decide (a = c) then r +:+ s' else String a (replace1 c r s')
  end.

(** The line feed of a ["\n"] escape. *)
Definition LF : string := String (Ascii.ascii_of_N 10) EmptyString.

(** The double quote. *)
Definition DQ : ascii := Ascii.ascii_of_N 34.

(** A JSON text written with apostrophes in place of double quotes. *)
Fixpoint json (s : string) : string :=
  match s with
  | EmptyString => EmptyString
  | String a s' => String (if bool_decide (a = "'"%char) then DQ else a) (json s')
  end.

Definition hex_digit (n : N) : ascii :=
  Ascii.ascii_of_N (if (n <? 10)%N then 48 + n else 87 + n).

(** [Buffer.from(bytes).toString("hex")] *)
Fixpoint toHex (bs : list Byte.byte) : string :=
  match bs with
  | [] => EmptyString
  | b :: bs' =>
      let n := Byte.to_N b in
      String (hex_digit (n / 16)) (String (hex_digit (n mod 16)) (toHex bs'))
  end.

(** *** Text and bytes

    A file holds bytes; a JavaScript string that is read from or
    written to a file is held here as its UTF-8 encoding.
    [buffer.toString("utf-8")], which [readFile(path, "utf-8")] applies,
    keeps every well-formed sequence and puts U+FFFD in place of each
    maximal ill-formed one; writing a string encodes it, which in this
    representation leaves it as it is. *)

(** What a byte announces at the start of a character: one byte on its
    own, the lead of [needed] more bytes (with the bounds of the next
    one), or nothing valid. *)
Inductive FirstByte :=
| One
| Lead (needed : nat) (lo hi : N)
| Bad.

Definition classify (a : ascii) : FirstByte :=
  let n := code a in
  if (n <=? 127)%N then One
  else if between 194 223 a then Lead 1 128 191
  else if (n =? 224)%N then Lead 2 160 191
  else if (n =? 237)%N then Lead 2 128 159
  else if between 225 239 a then Lead 2 128 191
  else if (n =? 240)%N then Lead 3 144 191
  else if (n =? 244)%N then Lead 3 128 143
  else if between 241 243 a then Lead 3 128 191
  else Bad.

(** U+FFFD, encoded. *)
Definition REPLACEMENT : string :=
  String (Ascii.ascii_of_N 239) (String (Ascii.ascii_of_N 191)
    (String (Ascii.ascii_of_N 189) EmptyString)).

(** A character under way: the bytes read so far, how many are still
    needed, and the bounds of the next one. *)
Definition Partial : Type := string * nat * N * N.

Definition pending_of (st : option Partial) : string :=
  match st with
  | Some (pending, _, _, _) => pending
  | None => EmptyString
  end.

Fixpoint utf8_decode_from (st : option Partial) (bytes : string) : string :=
  match bytes with
  | EmptyString =>
      match st with
      | None => EmptyString
      | Some _ => REPLACEMENT
      end
  | String a rest =>
      let fresh :=
        match classify a with
        | One => String a (utf8_decode_from None rest)
        | Lead n lo hi => utf8_decode_from (Some (String a EmptyString, n, lo, hi)) rest
        | Bad => REPLACEMENT +:+ utf8_decode_from None rest
        end in
      match st with
      | None => fresh
      | Some (pending, needed, lo, hi) =>
          if between lo hi a then
            match needed with
            | S (S n) =>
                utf8_decode_from (Some (pending +:+ String a EmptyString, S n, 128%N, 191%N)) rest
            | _ => (pending +:+ String a EmptyString) +:+ utf8_decode_from None rest
            end
          else REPLACEMENT +:+ fresh
      end
  end.

(** [buffer.toString("utf-8")] *)
Definition utf8_decode (bytes : string) : string := utf8_decode_from None bytes.

(** Well-formed UTF-8. *)
Fixpoint valid_utf8_from (st : option Partial) (bytes : string) : bool :=
  match bytes with
  | EmptyString =>
      match st with
      | None => true
      | Some _ => false
      end
  | String a rest =>
      match st with
      | None =>
          match classify a with
          | One => valid_utf8_from None rest
          | Lead n lo hi => valid_utf8_from (Some (String a EmptyString, n, lo, hi)) rest
          | Bad => false
          end
      | Some (pending, needed, lo, hi) =>
          between lo hi a
          && match needed with
             | S (S n) =>
                 valid_utf8_from (Some (pending +:+ String a EmptyString, S n, 128%N, 191%N)) rest
             | _ => valid_utf8_from None rest
             end
      end
  end.

Definition valid_utf8 (bytes : string) : bool := valid_utf8_from None bytes.

(** Does the text hold a line terminator (LF, CR, U+2028, U+2029), which
    the [.] of a regular expression does not match? *)
Fixpoint has_line_terminator (s : string) : bool :=
  match s with
  | EmptyString => false
  | String a s' =>
      (code a =? 10)%N || (code a =? 13)%N
      || match s' with
         | String b (String c _) =>
             (code a =? 226)%N && (code b =? 128)%N
             && ((code c =? 168)%N || (code c =? 169)%N)
         | _ => false
         end
      || has_line_terminator s'
  end.

(** *** Percent-escapes *)

Definition hex_value (a : ascii) : option N :=
  if is_digit a then Some (code a - 48)%N
  else if between 97 102 a then Some (code a - 87)%N
  else if between 65 70 a then Some (code a - 55)%N
  else None.

(** [tryDecodeURIComponent(str)] of the framework, which is
    [decodeURIComponent(str)] and, when that throws, [str] with every
    maximal run of escapes [%hh] replaced by what [decodeURIComponent]
    makes of the run, or kept when it throws on the run too.
    [decodeURIComponent] throws on a [%] that two hexadecimal digits do
    not follow and on escapes that do not spell well-formed UTF-8. Either
    way every maximal run of escapes becomes the bytes it spells when
    these are well-formed, and is kept as it is otherwise.

    [run_bytes] and [run_text] hold the run of escapes being read: the
    bytes it spells, and its text. *)
Fixpoint decode_runs (run_bytes run_text : string) (s : string) : string :=
  let flush := if valid_utf8 run_bytes then run_bytes else run_text in
  match s with
  | EmptyString => flush
  | String a s' =>
      let literal := flush +:+ String a (decode_runs EmptyString EmptyString s') in
      if (code a =? 37)%N then
        match s' with
        | String h (String l rest) =>
            match hex_value h, hex_value l with
            | Some hi, Some lo =>
                decode_runs (run_bytes +:+ String (Ascii.ascii_of_N (16 * hi + lo)) EmptyString)
                  (run_text +:+ String a (String h (String l EmptyString))) rest
            | _, _ => literal
            end
        | _ => literal
        end
      else literal
  end.

Definition tryDecodeURIComponent (s : string) : string :=
  decode_runs EmptyString EmptyString s.

End Js.

(** ** The worker: app.ts *)
Module Server.

(** [/^[a-z0-9-]+$/] and [/^[a-zA-Z0-9-]+$/] *)
Definition lower_class (a : ascii) : bool :=
  Js.is_lower a || Js.is_digit a || Js.is_dash a.
Definition mixed_class (a : ascii) : bool :=
  Js.is_lower a || Js.is_upper a || Js.is_digit a || Js.is_dash a.

Definition LowercaseAlphaNumericWithDashRegex (s : string) : bool :=
  Js.matches_plus lower_class s.
Definition MixedCaseAlphaNumericWithDashRegex (s : string) : bool :=
  Js.matches_plus mixed_class s.

Definition nonEmpty (s : string) : bool := negb (String.length s =? 0)%nat.
Definition maxLength (n : nat) (s : string) : bool := (String.length s <=? n)%nat.

Definition GithubUsername (s : string) : bool :=
  nonEmpty s && maxLength 39 s && MixedCaseAlphaNumericWithDashRegex s.

(** One field of [PackageInfo]. *)
Definition coordinate_field (s : string) : bool :=
  nonEmpty s && maxLength 32 s && LowercaseAlphaNumericWithDashRegex s.

(** What the [transform] of [PackageParams.package] returns: [org] is
    absent on the unscoped branch; [version] is [undefined] when the name
    holds no [@]. *)
Record RawPackage := {
  raw_org : option string;
  raw_packageName : string;
  raw_version : option string;
}.

(** The validated output of [PackageInfo]. *)
Record PackageInfo := {
  org : option string;
  packageName : string;
  version : string;
}.

(** The arrow function passed to [v.transform]. [None] is the
    [TypeError] raised by [name.split("@")] when [str.split("/")] has one
    piece only, so that [name] is [undefined]. *)
Definition transform (str : string) : option RawPackage :=
  if Js.startsWith "@" str then
    let '(o, names) := Js.split "/" str in
    match names with
    | name :: _ =>
        let '(pn, versions) := Js.split "@" name in
        Some {| raw_org := Some (Js.slice1 o);
                raw_packageName := pn;
                raw_version := head versions |}
    | [] => None
    end
  else
    let '(pn, versions) := Js.split "@" str in
    Some {| raw_org := None; raw_packageName := pn; raw_version := head versions |}.

(** The [PackageInfo] schema applied to the transform's output. *)
Definition checkPackageInfo (r : RawPackage) : option PackageInfo :=
  match raw_version r with
  | None => None
  | Some ver =>
      if match raw_org r with Some o => coordinate_field o | None => true end
         && coordinate_field (raw_packageName r)
         && coordinate_field ver
      then Some {| org := raw_org r; packageName := raw_packageName r; version := ver |}
      else None
  end.

Record StorageKeyArgs := {
  k_username : string;
  k_org : option string;
  k_packageName : string;
  k_version : string;
}.

Definition storageKey (args : StorageKeyArgs) : string :=
  "preview-pkg/" +:+ k_username args +:+ "/" +:+
  (if Js.truthy (k_org args)
   then "@" +:+ default "" (k_org args) +:+ "__" +:+ k_packageName args
   else k_packageName args)
  +:+ "@" +:+ k_version args.

(** The invariant of a coordinate: what [PackageInfo] accepts. *)
Definition valid_coordinate (c : PackageInfo) : bool :=
  match org c with Some o => coordinate_field o | None => true end
  && coordinate_field (packageName c)
  && coordinate_field (version c).

(** The key format as the specification words it:
    [preview-pkg/{identity}/{keyname}@{version}], where [keyname] is
    [name] for an unscoped package and [@{owner}__{name}] for a scoped
    one. *)
Definition spec_keyname (c : PackageInfo) : string :=
  match org c with
  | None => packageName c
  | Some owner => "@" +:+ owner +:+ "__" +:+ packageName c
  end.

Definition spec_key (identity : string) (c : PackageInfo) : string :=
  "preview-pkg/" +:+ identity +:+ "/" +:+ spec_keyname c +:+ "@" +:+ version c.

(** *** What the worker talks to *)

(** An object of the R2 bucket, as [head] and [get] return it.
    [checksums.sha256] is optional in R2: only objects that were put with
    a [sha256] option carry it. *)
Record R2Object := {
  body : list Byte.byte;
  checksums_sha256 : option (list Byte.byte);
  customMetadata : string * string * string;
}.

Abbreviation Bucket := (gmap string R2Object).

(** R2's answer to [STORAGE.put(key, bytes, {customMetadata, sha256})]:
    it resolves, having recorded the digest it computed, or it rejects
    with a message. *)
Inductive PutOutcome :=
| PutResolves (digest : list Byte.byte)
| PutRejects (message : string).

Record Env := {
  (** [octokit.rest.users.getAuthenticated()] for the given
      [Authorization] header: the login, or [None] when the call rejects. *)
  getAuthenticated : string -> option string;
  STORAGE_put : string -> list Byte.byte -> string -> PutOutcome;
}.

Definition STORAGE_head (b : Bucket) (key : string) : option R2Object := b !! key.
Definition STORAGE_get (b : Bucket) (key : string) : option R2Object := b !! key.

Inductive FormValue :=
| FText (s : string)
| FFile (filename : string) (bytes : list Byte.byte).

Record Request := {
  param_username : string;
  param_package : string;
  form_tarball : option FormValue;
  form_sha256 : option FormValue;
  header_authorization : option string;
}.

Inductive Payload :=
| InvalidPackageFormat
| PackageNotFound
| Unauthorized (error : string)
| AlreadyExists (error : string) (sha256 : string)
| InvalidChecksum
| StorageFailure
| PackageCreated
| HeaderIssues.

Inductive Response :=
| Json (status : nat) (payload : Payload)
| Tarball (status : nat) (contentType : string) (bytes : list Byte.byte)
| Uncaught. (* an exception escaped the route: Hono answers 500 *)

Definition status_of (r : Response) : nat :=
  match r with
  | Json st _ | Tarball st _ _ => st
  | Uncaught => 500
  end.

Inductive Event :=
| EvAuth (authorization : string)
| EvHead (key : string)
| EvGet (key : string)
| EvPut (key : string).

(** *** Validators *)

Inductive ParamResult :=
| ParamsThrow
| ParamsInvalid
| ParamsValid (username : string) (package : PackageInfo).

(** [vValidator("param", PackageParams, hook)] *)
Definition validatePackageParams (username package : string) : ParamResult :=
  match transform package with
  | None => ParamsThrow
  | Some raw =>
      match checkPackageInfo raw with
      | Some info => if GithubUsername username then ParamsValid username info else ParamsInvalid
      | None => ParamsInvalid
      end
  end.

Definition maxTarballSize : Z := 1024 * 1024 * 10.

Definition File_size (bytes : list Byte.byte) : Z := Z.of_nat (length bytes).

(** [v.pipe(v.file(), v.maxSize(1024 * 1024 * 10, ...))] *)
Definition tarball_schema (f : option FormValue) : option (list Byte.byte) :=
  match f with
  | Some (FFile _ bytes) => if (File_size bytes >? maxTarballSize)%Z then None else Some bytes
  | _ => None
  end.

(** [v.pipe(v.string(), v.length(64))] *)
Definition sha256_schema (f : option FormValue) : option string :=
  match f with
  | Some (FText s) => if (String.length s =? 64)%nat then Some s else None
  | _ => None
  end.

(** A request whose tarball exceeds the limit, and one whose [sha256]
    field is not 64 characters long. *)
Definition oversized (req : Request) : Prop :=
  exists filename bytes,
    form_tarball req = Some (FFile filename bytes) /\ (File_size bytes > maxTarballSize)%Z.

Definition bad_sha256_length (req : Request) : Prop :=
  exists s, form_sha256 req = Some (FText s) /\ String.length s <> 64.

Definition key_of (username : string) (info : PackageInfo) : string :=
  storageKey {| k_username := username; k_org := org info;
                k_packageName := packageName info; k_version := version info |}.

(** *** [app.get("/:username/:package{.+}", ...)]

    The validator and the handler of the route, for the two parameters
    the router took from a path that matched (see [route_params]). *)
Definition get_route (username package : string) (b : Bucket) : Response * list Event :=
  match validatePackageParams username package with
  | ParamsThrow => (Uncaught, [])
  | ParamsInvalid => (Json 400 InvalidPackageFormat, [])
  | ParamsValid username info =>
      let packageKey := key_of username info in
      match STORAGE_head b packageKey with
      | None => (Json 404 PackageNotFound, [EvHead packageKey])
      | Some _ =>
          match STORAGE_get b packageKey with
          | None => (Json 404 PackageNotFound, [EvHead packageKey; EvGet packageKey])
          | Some packageBody =>
              (Tarball 200 "application/tar+gzip" (body packageBody),
               [EvHead packageKey; EvGet packageKey])
          end
      end
  end.

(** *** [app.post("/:username/:package{.+}", ...)] *)

Definition display_name (info : PackageInfo) : string :=
  (if Js.truthy (org info) then "@" +:+ default "" (org info) +:+ "/" else "")
  +:+ packageName info +:+ "@" +:+ version info.

(** The final handler, once the three validators have passed. *)
Definition post_handler (env : Env) (username : string) (info : PackageInfo)
    (tarball : list Byte.byte) (sha256 : string) (authorization : string)
    (b : Bucket) : Response * Bucket * list Event :=
  match getAuthenticated env authorization with
  | None => (Uncaught, b, [EvAuth authorization])
  | Some login =>
      if negb (bool_decide (login = username)) then
        (Json 401 (Unauthorized
           ("Unauthorized: You are trying to publish a package for " +:+ username
            +:+ " but you are logged in as " +:+ login)),
         b, [EvAuth authorization])
      else
        let packageKey := key_of username info in
        match STORAGE_head b packageKey with
        | Some {| checksums_sha256 := Some digest |} =>
            (Json 409 (AlreadyExists ("Package " +:+ display_name info +:+ " already exists")
                                     (Js.toHex digest)),
             b, [EvAuth authorization; EvHead packageKey])
        | _ =>
            let events := [EvAuth authorization; EvHead packageKey; EvPut packageKey] in
            match STORAGE_put env packageKey tarball sha256 with
            | PutResolves digest =>
                (Json 201 PackageCreated,
                 <[packageKey :=
                     {| body := tarball;
                        checksums_sha256 := Some digest;
                        customMetadata := (default "" (org info), packageName info, version info) |}]> b,
                 events)
            | PutRejects message =>
                if Js.includes "SHA-256" message
                then (Json 400 InvalidChecksum, b, events)
                else (Json 500 StorageFailure, b, events)
            end
        end
  end.

Definition post_route (env : Env) (req : Request) (b : Bucket)
    : Response * Bucket * list Event :=
  match validatePackageParams (param_username req) (param_package req) with
  | ParamsThrow => (Uncaught, b, [])
  | ParamsInvalid => (Json 400 InvalidPackageFormat, b, [])
  | ParamsValid username info =>
      match tarball_schema (form_tarball req), sha256_schema (form_sha256 req) with
      | Some tarball, Some sha256 =>
          match header_authorization req with
          | None => (Json 400 HeaderIssues, b, [])
          | Some authorization => post_handler env username info tarball sha256 authorization b
          end
      | _, _ => (Json 400 InvalidPackageFormat, b, [])
      end
  end.

(** *** Routing *)

(** What the application answers: the router's own 404 when no route
    matches the path, the redirect of [app.get("/", ...)], or the answer
    of the handlers of [/:username/:package{.+}]. *)
Inductive AppResponse :=
| NotFound
| Redirect (location : string)
| Routed (r : Response).


(** The text before the first [/] and the text after it. *)
Fixpoint cut_slash (s : string) : option (string * string) :=
  match s with
  | EmptyString => None
  | String a s' =>
      if bool_decide (a = "/"%char) then Some (EmptyString, s')
      else
        match cut_slash s' with
        | Some (before, after) => Some (String a before, after)
        | None => None
        end
  end.

(** The two segments of a request path that [/:username/:package{.+}]
    matches. The router matches the path against a regular expression in
    which [:username] stands for one or more characters other than [/]
    and [:package{.+}] for one or more characters matched by [.], up to
    the end of the path; [.] matches no line terminator. *)
Definition route_params (path : string) : option (string * string) :=
  match path with
  | String a rest =>
      if bool_decide (a = "/"%char) then
        match cut_slash rest with
        | Some (username, package) =>
            if Js.truthy (Some username) && Js.truthy (Some package)
               && negb (Js.has_line_terminator package)
            then Some (username, package)
            else None
        | None => None
        end
      else None
  | EmptyString => None
  end.

(** [c.req.param()], which the validator is given: each matched segment
    with its percent-escapes decoded. *)
Definition decoded_param (segment : string) : string :=
  Js.tryDecodeURIComponent segment.

(** [GET path], for the path as the router sees it. *)
Definition app_get (path : string) (b : Bucket) : AppResponse * list Event :=
  if bool_decide (path = "/") then
    (Redirect "https://github.com/BlankParticle/preview-pkg", [])
  else
    match route_params path with
    | Some (username, package) =>
        let '(r, events) := get_route (decoded_param username) (decoded_param package) b in
        (Routed r, events)
    | None => (NotFound, [])
    end.

(** [POST path] with a form and headers. *)
Definition app_post (env : Env) (path : string) (tarball sha256 : option FormValue)
    (authorization : option string) (b : Bucket) : AppResponse * Bucket * list Event :=
  match route_params path with
  | Some (username, package) =>
      let '(r, b', events) :=
        post_route env {| param_username := decoded_param username;
                          param_package := decoded_param package;
                          form_tarball := tarball; form_sha256 := sha256;
                          header_authorization := authorization |} b in
      (Routed r, b', events)
  | None => (NotFound, b, [])
  end.

End Server.

(** ** The command line: cli.ts and credential-manager.ts *)
Module Cli.

Inductive PackageManager := pnpm | bun | yarn | npm.

#[global] Instance PackageManager_eq_dec : EqDecision PackageManager.
Proof. solve_decision. Defined.

Definition pm_name (pm : PackageManager) : string :=
  match pm with pnpm => "pnpm" | bun => "bun" | yarn => "yarn" | npm => "npm" end.

(** A [Record<string, string>]: a plain object used as a dictionary. *)
Abbreviation Dict := (gmap string string).

Record PackageJson := {
  name : option string;
  version : option string;
  private : bool; (* truthiness of the field *)
  dependencies : option Dict;
  devDependencies : option Dict;
  optionalDependencies : option Dict;
  peerDependencies : option Dict;
  other_fields : Dict; (* [[key: string]: any], kept as raw text *)
}.

#[global] Instance PackageJson_eq_dec : EqDecision PackageJson.
Proof. solve_decision. Defined.

(** *** The file system, child processes and the network *)

(** A path holds a file, with its bytes, or a directory. *)
Inductive Node :=
| File (contents : string)
| Dir (size : Z).

Inductive Exn :=
| SystemError (code syscall path : string)
| Error (message : string).

Inductive Result (A : Type) :=
| Ok (a : A)
| Throw (e : Exn).
Arguments Ok {A} a.
Arguments Throw {A} e.

(** What [tinyexec]'s [x] resolves to. *)
Record ExecResult := {
  exitCode : option Z;
  stdout : string;
  stderr : string;
}.

Record FormData := {
  form_filename : string;
  form_tarball : string;
  form_sha256 : string;
}.

Record FetchResponse := {
  status : nat;
  statusText : string;
  text : string;
}.

(** [uploadRes.ok] *)
Definition ok (r : FetchResponse) : bool := ((200 <=? status r) && (status r <=? 299))%nat.

(** A response body accepted by the union of the two loose objects; the
    [sha256] member, when the body has one, is the hex digest the worker
    sends. *)
Record UploadBody := {
  body_message : option string;
  body_error : option string;
  body_sha256 : option string;
}.

Record Credentials := {
  clientId : string;
  scopes : list string;
  token : string;
}.

Inductive LogLevel := Warn | Err | Info | Success | Outro.

Inductive Event :=
| EvReadFile (path : string)
| EvWriteFile (path contents : string)
| EvStat (path : string)
| EvUnlink (path : string)
| EvExec (command : string) (args : list string) (cwd : option string)
| EvGetAuthenticated (token : string)
| EvFetch (url : string) (body : FormData) (authorization : string)
| EvLog (level : LogLevel) (message : string).

Abbreviation Disk := (gmap string Node).

Record State (World : Type) := {
  disk : Disk;
  world : World;
  trace : list Event;
}.
Arguments disk {World} s.
Arguments world {World} s.
Arguments trace {World} s.

(** Everything the program reaches outside of itself. [World] is the
    state of the outside (the registry, GitHub, the tools' caches). *)
Record Env (World : Type) := {
  process_cwd : string;
  glob : string -> list string;
  API_URL_BASE : string; (* ./config *)
  credentialPath : string;
  parseCredentials : string -> option Credentials;
  JSON_parse : string -> option PackageJson;
  JSON_stringify : PackageJson -> string;
  sha256_hex : string -> string;
  getAuthenticated : string -> World -> Result string * World;
  x : string -> list string -> option string -> Disk -> World -> ExecResult * Disk * World;
  fetch : string -> FormData -> string -> World -> Result FetchResponse * World;
  parseUploadResponse : string -> option UploadBody;
  inspect_issues : string -> string;
  inspect_output : UploadBody -> string;
}.
Arguments process_cwd {World} e.
Arguments glob {World} e.
Arguments API_URL_BASE {World} e.
Arguments credentialPath {World} e.
Arguments parseCredentials {World} e.
Arguments JSON_parse {World} e.
Arguments JSON_stringify {World} e.
Arguments sha256_hex {World} e.
Arguments getAuthenticated {World} e.
Arguments x {World} e.
Arguments fetch {World} e.
Arguments parseUploadResponse {World} e.
Arguments inspect_issues {World} e.
Arguments inspect_output {World} e.

(** [path.join(dir, file)] for a normalized directory path, as [glob]
    with [absolute: true] and [process.cwd()] give them. *)
Definition join (dir file : string) : string := dir +:+ "/" +:+ file.

(** *** The monad of the program: state, and exceptions that keep it *)
Definition M (World A : Type) : Type := State World -> Result A * State World.

Definition ret {World A} (a : A) : M World A := fun s => (Ok a, s).

Definition bind {World A B} (m : M World A) (k : A -> M World B) : M World B :=
  fun s =>
    match m s with
    | (Ok a, s') => k a s'
    | (Throw e, s') => (Throw e, s')
    end.

Definition throw {World A} (e : Exn) : M World A := fun s => (Throw e, s).

(** [promise.catch(() => null)] *)
Definition catch_null {World A} (m : M World A) : M World (option A) :=
  fun s =>
    match m s with
    | (Ok a, s') => (Ok (Some a), s')
    | (Throw _, s') => (Ok None, s')
    end.

(** [try { ... } catch (error) { handler }] *)
Definition try_catch {World A} (m : M World A) (handler : Exn -> M World A) : M World A :=
  fun s =>
    match m s with
    | (Ok a, s') => (Ok a, s')
    | (Throw e, s') => handler e s'
    end.

Definition emit {World} (e : Event) : M World unit :=
  fun s => (Ok tt, {| disk := disk s; world := world s; trace := trace s ++ [e] |}).

(** [prompts.log.warn], [.error], [.info], [.success] and [prompts.outro],
    without the colours. The intro, the spinner, the note and the task
    titles only draw on the terminal and are left out. *)
Definition log {World} (level : LogLevel) (message : string) : M World unit :=
  emit (EvLog level message).

Definition get_disk {World} : M World Disk := fun s => (Ok (disk s), s).

Definition set_disk {World} (d : Disk) : M World unit :=
  fun s => (Ok tt, {| disk := d; world := world s; trace := trace s |}).

#[global] Instance M_ret {World} : MRet (M World) := fun A => @ret World A.
#[global] Instance M_bind {World} : MBind (M World) := fun A B k m => @bind World A B m k.

(** [for (const a of l) { acc = body(acc, a) }] *)
Fixpoint for_of {World A B} (l : list A) (body : B -> A -> M World B) (acc : B) : M World B :=
  match l with
  | [] => ret acc
  | a :: l' => bind (body acc a) (for_of l' body)
  end.

(** [error instanceof Error ? error.message : String(error)] *)
Definition message_of (e : Exn) : string :=
  match e with
  | SystemError code syscall path =>
      code +:+ ": " +:+ syscall +:+ " '" +:+ path +:+ "'"
  | Error message => message
  end.

(** *** node:fs/promises *)

(** [readFile(path)]: the bytes of the file. *)
Definition readFile {World} (path : string) : M World string :=
  emit (EvReadFile path);;
  d ← get_disk;
  match d !! path with
  | Some (File contents) => ret contents
  | Some (Dir _) => throw (SystemError "EISDIR" "read" path)
  | None => throw (SystemError "ENOENT" "open" path)
  end.

(** [readFile(path, "utf-8")]: the bytes of the file, decoded. *)
Definition readFile_utf8 {World} (path : string) : M World string :=
  contents ← readFile path;
  mret (Js.utf8_decode contents).

(** [writeFile(path, contents)] for a string: its UTF-8 encoding is
    stored. *)
Definition writeFile {World} (path contents : string) : M World unit :=
  emit (EvWriteFile path contents);;
  d ← get_disk;
  match d !! path with
  | Some (Dir _) => throw (SystemError "EISDIR" "open" path)
  | _ => set_disk (<[path := File contents]> d)
  end.

(** [stat(path)], of which the program reads [size] only. *)
Definition stat {World} (path : string) : M World Z :=
  emit (EvStat path);;
  d ← get_disk;
  match d !! path with
  | Some (File contents) => ret (Z.of_nat (String.length contents))
  | Some (Dir size) => ret size
  | None => throw (SystemError "ENOENT" "stat" path)
  end.

Definition unlink {World} (path : string) : M World unit :=
  emit (EvUnlink path);;
  d ← get_disk;
  match d !! path with
  | Some (File _) => set_disk (delete path d)
  | Some (Dir _) => throw (SystemError "EISDIR" "unlink" path)
  | None => throw (SystemError "ENOENT" "unlink" path)
  end.

(** *** Dependency rewriting *)

(** The own properties of [Object.prototype], which every object made by
    [JSON.parse] inherits. *)
Definition Object_prototype : list string :=
  ["constructor"; "__defineGetter__"; "__defineSetter__"; "hasOwnProperty";
   "__lookupGetter__"; "__lookupSetter__"; "isPrototypeOf";
   "propertyIsEnumerable"; "toString"; "valueOf"; "__proto__"; "toLocaleString"].

(** [key in obj]: own or inherited. *)
Definition js_in (key : string) (obj : Dict) : bool :=
  bool_decide (is_Some (obj !! key)) || bool_decide (key ∈ Object_prototype).

(** [obj[key] = value] for a string [value]: it writes an own property,
    except that the inherited [__proto__] setter ignores a string. *)
Definition js_set (key value : string) (obj : Dict) : Dict :=
  if bool_decide (key = "__proto__") && bool_decide (obj !! key = None)
  then obj
  else <[key := value]> obj.

Definition hijack_step (newDep url : string) (oldDeps : Dict) : Dict :=
  if js_in newDep oldDeps then js_set newDep url oldDeps else oldDeps.

(** [newDeps] is the [Map] built by PASS 1; each of its keys is visited
    once. *)
Definition hijackDeps (newDeps : Dict) (oldDeps : option Dict) : option Dict :=
  match oldDeps with
  | None => None
  | Some old => Some (map_fold hijack_step old newDeps)
  end.

(** The manifest object after the three [hijackDeps] calls of
    [writeDeps]. *)
Definition hijacked (deps : Dict) (pJson : PackageJson) : PackageJson :=
  {| name := name pJson;
     version := version pJson;
     private := private pJson;
     dependencies := hijackDeps deps (dependencies pJson);
     devDependencies := hijackDeps deps (devDependencies pJson);
     optionalDependencies := hijackDeps deps (optionalDependencies pJson);
     peerDependencies := peerDependencies pJson;
     other_fields := other_fields pJson |}.

(** The closure [() => writeFile(pJsonPath, originalContents)], as the
    two values it captures. *)
Record Restore := {
  restore_path : string;
  restore_contents : string;
}.

Record PackResult := {
  filename : string;
  file : string;
  sha256 : string;
  size : Z;
  output : string;
}.

Record PackOptions := {
  packageManager : PackageManager;
  cwd : string;
  packageIdentifier : string;
  keepFile : bool;
}.

Record PackageEntry := {
  entry_path : string;
  entry_pJson : PackageJson;
}.

Record Packed := {
  packed_path : string;
  packed_pJson : PackageJson;
  packed_identifier : string;
  packResult : PackResult;
}.

Inductive UploadStatus := success | exists_ | error.

#[global] Instance UploadStatus_eq_dec : EqDecision UploadStatus.
Proof. solve_decision. Defined.

Record UploadResult := {
  result_pJson : PackageJson;
  result_packageUrl : string;
  result_status : UploadStatus;
  errorMessage : option string;
}.

Record Input := {
  patterns : list string;
  packer : PackageManager;
  input_version : option string;
}.

Inductive Outcome :=
| AuthenticationRequired
| VersionDetectionFailed
| NoPackagesToPublish
| Completed (uploadResults : list UploadResult).

(** [pJson.name!] *)
Definition name_of (pJson : PackageJson) : string := default "" (name pJson).

(** [Map.prototype.set] on a map kept in insertion order. *)
Fixpoint map_set {V} (key : string) (v : V) (m : list (string * V)) : list (string * V) :=
  match m with
  | [] => [(key, v)]
  | (k, w) :: m' => if bool_decide (k = key) then (k, v) :: m' else (k, w) :: map_set key v m'
  end.

Definition formatInstallationCommand (packageUrl : string) (pm : PackageManager) : string :=
  String.concat " "
    [pm_name pm; (if bool_decide (pm = yarn) then "add" else "install"); packageUrl].

(** The arguments [pack] hands to the tool: [pack], with [pm] put in
    front for bun and the file name appended for yarn. *)
Definition packArgs (options : PackOptions) : list string :=
  let packArgs := ["pack"] in
  let packArgs :=
    if bool_decide (packageManager options = bun) then "pm" :: packArgs else packArgs in
  if bool_decide (packageManager options = yarn)
  then (packArgs ++ ["--filename"; packageIdentifier options +:+ ".tgz"])%list
  else packArgs.

(** The message of the error thrown on a nonzero exit status. *)
Definition pack_failure (options : PackOptions) (output : string) : string :=
  "Failed to pack " +:+ cwd options +:+ " with " +:+ pm_name (packageManager options)
  +:+ (if Js.truthy (Some output) then ":" +:+ Js.LF +:+ output else "").

Definition pack_invariant_violation : string :=
  "Pack command returned success but no output file was found, this is likely a bug".

Definition is_write (e : Event) : bool :=
  match e with EvWriteFile _ _ => true | _ => false end.

Definition is_fetch (e : Event) : bool :=
  match e with EvFetch _ _ _ => true | _ => false end.

(** Events that change nothing and reach nobody: a file is read, a
    message is shown. *)
Definition is_quiet (e : Event) : bool :=
  match e with EvReadFile _ | EvLog _ _ => true | _ => false end.

Section Program.
Context {World : Type} (env : Env World).

Local Abbreviation IO := (M World).

Definition call_getAuthenticated (tok : string) : IO string :=
  fun s =>
    let '(r, w) := getAuthenticated env tok (world s) in
    (r, {| disk := disk s; world := w; trace := trace s ++ [EvGetAuthenticated tok] |}).

Definition call_x (command : string) (args : list string) (dir : option string) : IO ExecResult :=
  fun s =>
    let '(r, d, w) := x env command args dir (disk s) (world s) in
    (Ok r, {| disk := d; world := w; trace := trace s ++ [EvExec command args dir] |}).

Definition call_fetch (url : string) (form : FormData) (authorization : string) : IO FetchResponse :=
  fun s =>
    let '(r, w) := fetch env url form authorization (world s) in
    (r, {| disk := disk s; world := w; trace := trace s ++ [EvFetch url form authorization] |}).

(** **** credential-manager.ts *)

Definition getCredentials : IO (option Credentials) :=
  credentials ← catch_null (readFile_utf8 (credentialPath env));
  if negb (Js.truthy credentials) then mret None
  else
    match parseCredentials env (default "" credentials) with
    | None =>
        log Warn "Failed to parse GitHub credentials, credentials may be corrupted, removing file...";;
        catch_null (unlink (credentialPath env));;
        mret None
    | Some parsed => mret (Some parsed)
    end.

Definition getUsername : IO string :=
  credentials ← getCredentials;
  match credentials with
  | None => throw (Error "No credentials found")
  | Some c => call_getAuthenticated (token c)
  end.

(** **** cli.ts *)

Definition readPackageJson (path : string) : IO (option PackageJson) :=
  try_catch
    (contents ← readFile_utf8 path; mret (JSON_parse env contents))
    (fun _ => mret None).

Definition writeDeps (pJsonPath originalContents : string) (pJson : PackageJson)
    (deps : Dict) : IO (PackageJson * Restore) :=
  let pJson := hijacked deps pJson in
  writeFile pJsonPath (JSON_stringify env pJson);;
  mret (pJson, {| restore_path := pJsonPath; restore_contents := originalContents |}).

Definition restore (r : Restore) : IO unit :=
  writeFile (restore_path r) (restore_contents r).

Definition pack (options : PackOptions) : IO PackResult :=
  res ← call_x (pm_name (packageManager options)) (packArgs options) (Some (cwd options));
  let output := Js.trim (stdout res +:+ stderr res) in
  if negb (bool_decide (exitCode res = Some 0%Z)) then
    throw (Error (pack_failure options output))
  else
    let filename := join (cwd options) (packageIdentifier options +:+ ".tgz") in
    file ← catch_null (readFile filename);
    stats ← stat filename;
    match file with
    | None =>
        throw (Error pack_invariant_violation)
    | Some file =>
        let sha256 := sha256_hex env file in
        (if negb (keepFile options) then unlink filename else mret tt);;
        mret {| filename := filename; file := file; sha256 := sha256;
                size := stats; output := output |}
    end.

(** **** The [publish] procedure *)

(** [input[0]] expanded with [glob], or the current directory. *)
Definition expand_paths (input : Input) : list string :=
  if (0 <? length (patterns input))%nat
  then filter (fun p => p <> "") (concat (map (glob env) (patterns input)))
  else [process_cwd env].

(** The publish version: [None] stands for the early [return]. *)
Definition resolveVersion (explicit : option string) : IO (option string) :=
  if negb (Js.truthy explicit) then
    gitVersion ← call_x "git" ["rev-parse"; "HEAD"] None;
    if negb (bool_decide (exitCode gitVersion = Some 0%Z)) then
      log Err "Failed to get the Git commit hash, please pass in version manually with --version flag";;
      log Outro "Version detection failed";;
      mret None
    else mret (Some (Js.slice0 7 (Js.trim (stdout gitVersion))))
  else mret explicit.

Definition packageUrlOf (username publishingVersion : string) (pJson : PackageJson) : string :=
  API_URL_BASE env +:+ "/" +:+ username +:+ "/" +:+ name_of pJson +:+ "@" +:+ publishingVersion.

(** PASS 1, one path. *)
Definition scan_step (username publishingVersion : string)
    (acc : Dict * list PackageEntry) (p : string) : IO (Dict * list PackageEntry) :=
  let pJsonPath := join p "package.json" in
  pJson ← readPackageJson pJsonPath;
  match pJson with
  | None => log Warn ("Skipping " +:+ p +:+ ": package.json not found");; mret acc
  | Some pJson =>
      if negb (Js.truthy (name pJson)) then
        log Warn ("Skipping " +:+ p +:+ ": package name not defined");; mret acc
      else if private pJson then
        log Warn ("Skipping " +:+ p +:+ ": package is private");; mret acc
      else if negb (Js.truthy (version pJson)) then
        log Warn ("Skipping " +:+ p +:+ ": package version not defined");; mret acc
      else
        let packageInfos := (acc.2 ++ [{| entry_path := p; entry_pJson := pJson |}])%list in
        let packageUrl := packageUrlOf username publishingVersion pJson in
        mret (<[name_of pJson := packageUrl]> acc.1, packageInfos)
  end.

Definition scan (username publishingVersion : string) (paths : list string)
    : IO (Dict * list PackageEntry) :=
  for_of paths (scan_step username publishingVersion) (∅, []).


(** PASS 2, one package. [writeDeps] mutates [pJson] in place: the entry
    that later passes see is the rewritten one. *)
Definition mutate_step (deps : Dict)
    (acc : list (string * Restore) * list PackageEntry) (e : PackageEntry)
    : IO (list (string * Restore) * list PackageEntry) :=
  let pJsonPath := join (entry_path e) "package.json" in
  originalContents ← readFile_utf8 pJsonPath;
  r ← writeDeps pJsonPath originalContents (entry_pJson e) deps;
  mret (map_set (entry_path e) r.2 acc.1,
        (acc.2 ++ [{| entry_path := entry_path e; entry_pJson := r.1 |}])%list).

Definition mutate (deps : Dict) (packageInfos : list PackageEntry)
    : IO (list (string * Restore) * list PackageEntry) :=
  for_of packageInfos (mutate_step deps) ([], []).

Definition identifier_of (pJson : PackageJson) : string :=
  Js.replace1 "/" "-" (Js.replace1 "@" "" (name_of pJson))
  +:+ "-" +:+ default "" (version pJson).

(** PASS 3, one package. *)
Definition pack_step (pm : PackageManager) (packedPackages : list Packed)
    (e : PackageEntry) : IO (list Packed) :=
  let packageIdentifier := identifier_of (entry_pJson e) in
  packResult ← pack {| packageManager := pm; cwd := entry_path e;
                       packageIdentifier := packageIdentifier; keepFile := false |};
  mret (packedPackages ++ [{| packed_path := entry_path e;
                              packed_pJson := entry_pJson e;
                              packed_identifier := packageIdentifier;
                              packResult := packResult |}])%list.

Definition pack_all (pm : PackageManager) (packageInfos : list PackageEntry)
    : IO (list Packed) :=
  for_of packageInfos (pack_step pm) [].

(** PASS 4 *)
Definition restore_all (restoreMap : list (string * Restore)) : IO unit :=
  for_of (restoreMap.*2) (fun _ r => restore r) tt.

(** PASS 5, one task. The map holds an entry for the name of every
    package that PASS 1 kept, so [deps.get(pJson.name!)!] is defined. *)
Definition upload_task (credentials : Credentials) (deps : Dict)
    (uploadResults : list UploadResult) (p : Packed) : IO (list UploadResult) :=
  let pJson := packed_pJson p in
  let packageUrl := default "" (deps !! name_of pJson) in
  let push st msg :=
    (uploadResults ++ [{| result_pJson := pJson; result_packageUrl := packageUrl;
                          result_status := st; errorMessage := msg |}])%list in
  try_catch
    (let form := {| form_filename := filename (packResult p);
                    form_tarball := file (packResult p);
                    form_sha256 := sha256 (packResult p) |} in
     uploadRes ← call_fetch packageUrl form ("Bearer " +:+ token credentials);
     match parseUploadResponse env (text uploadRes) with
     | None =>
         mret (push error (Some ("Failed to parse response: "
                                 +:+ inspect_issues env (text uploadRes))))
     | Some response =>
         match (if (status uploadRes =? 409)%nat then body_sha256 response else None) with
         | Some existing =>
             if bool_decide (existing = sha256 (packResult p))
             then mret (push exists_ None)
             else mret (push error
                    (Some ("Same version exists with different SHA-256 checksum" +:+ Js.LF
                           +:+ "Expected: " +:+ existing +:+ Js.LF
                           +:+ "Actual: " +:+ sha256 (packResult p))))
         | None =>
             if negb (ok uploadRes)
             then mret (push error (Some (inspect_output env response)))
             else mret (push success None)
         end
     end)
    (fun e => mret (push error (Some (message_of e)))).

Definition upload_all (credentials : Credentials) (deps : Dict)
    (packedPackages : list Packed) : IO (list UploadResult) :=
  for_of packedPackages (upload_task credentials deps) [].

Definition has_status (st : UploadStatus) (r : UploadResult) : bool :=
  bool_decide (result_status r = st).

(** The report after the uploads. *)
Definition report (pm : PackageManager) (uploadResults : list UploadResult) : IO unit :=
  let errorUploads := List.filter (has_status error) uploadResults in
  (if (0 <? length errorUploads)%nat then
     log Info "";;
     for_of errorUploads
       (fun _ r =>
          if Js.truthy (errorMessage r) then
            log Err (name_of (result_pJson r) +:+ ":");;
            log Info (default "" (errorMessage r))
          else mret tt) tt
   else mret tt);;
  let successfulUploads := List.filter (has_status success) uploadResults in
  let existingPackages := List.filter (has_status exists_) uploadResults in
  (if ((0 <? length successfulUploads) || (0 <? length existingPackages))%nat then
     log Info "Installation Commands:";;
     log Success
       (String.concat Js.LF
          (map (fun r => formatInstallationCommand (result_packageUrl r) pm)
               (successfulUploads ++ existingPackages)%list))
   else mret tt);;
  if (0 <? length successfulUploads)%nat then
    log Outro ("✅ Successfully published " +:+ pretty (length successfulUploads)
               +:+ " package"
               +:+ (if (1 <? length successfulUploads)%nat then "s" else "") +:+ "!")
  else if (0 <? length existingPackages)%nat then
    log Outro "All packages already exist with the same content"
  else log Outro "No packages were published".

(** Everything after the publish version is known. *)
Definition publish_packages (credentials : Credentials) (input : Input)
    (paths : list string) (publishingVersion : string) : IO Outcome :=
  username ← getUsername;
  scanned ← scan username publishingVersion paths;
  let deps := scanned.1 in
  let packageInfos := scanned.2 in
  if (length packageInfos =? 0)%nat then
    log Err "No valid packages found to publish";;
    log Outro "No packages to publish";;
    mret NoPackagesToPublish
  else
    mutated ← mutate deps packageInfos;
    let restoreMap := mutated.1 in
    packedPackages ← pack_all (packer input) mutated.2;
    restore_all restoreMap;;
    uploadResults ← upload_all credentials deps packedPackages;
    report (packer input) uploadResults;;
    mret (Completed uploadResults).

Definition publish (input : Input) : IO Outcome :=
  credentials ← getCredentials;
  match credentials with
  | None =>
      log Err "Please login using GitHub with `preview-pkg login` before publishing packages.";;
      log Outro "Authentication required";;
      mret AuthenticationRequired
  | Some credentials =>
      let paths := expand_paths input in
      publishingVersion ← resolveVersion (input_version input);
      match publishingVersion with
      | None => mret VersionDetectionFailed
      | Some publishingVersion =>
          publish_packages credentials input paths publishingVersion
      end
  end.

End Program.

End Cli.

(** ** Concrete requests and buckets for the worker *)
Module ServerExamples.
Import Server.

(** A three-byte upload and its SHA-256. *)
Definition gz : list Byte.byte := [Byte.x1f; Byte.x8b; Byte.x08].

Definition gz_digest : list Byte.byte :=
  [Byte.xba; Byte.xa8; Byte.x98; Byte.x58; Byte.xc7; Byte.xe5; Byte.x45; Byte.x39;
   Byte.x02; Byte.x73; Byte.x53; Byte.x0b; Byte.xa6; Byte.x3c; Byte.x61; Byte.xb9;
   Byte.x4c; Byte.x2e; Byte.x09; Byte.xd3; Byte.x8c; Byte.x28; Byte.xb0; Byte.xa0;
   Byte.x31; Byte.x1b; Byte.xfa; Byte.x7b; Byte.xde; Byte.x39; Byte.x61; Byte.x81].

Definition gz_sha256 : string :=
  "baa89858c7e545390273530ba63c61b94c2e09d38c28b0a0311bfa7bde396181".

(** GitHub knows one token; R2 checks the digest of [gz]. *)
Definition env : Env :=
  {| getAuthenticated := fun authorization =>
       if bool_decide (authorization = "Bearer alice-token") then Some "alice" else None;
     STORAGE_put := fun _ bytes sha256 =>
       if bool_decide (bytes = gz) && bool_decide (sha256 = gz_sha256)
       then PutResolves gz_digest
       else PutRejects "put: The SHA-256 checksum you specified did not match what we received." |}.

Definition upload (package : string) (sha256 : string) : Request :=
  {| param_username := "alice";
     param_package := package;
     form_tarball := Some (FFile "left-pad-1.0.0.tgz" gz);
     form_sha256 := Some (FText sha256);
     header_authorization := Some "Bearer alice-token" |}.

Definition left_pad : PackageInfo :=
  {| org := None; packageName := "left-pad"; version := "abc1234" |}.

Definition scoped_b : PackageInfo :=
  {| org := Some "a"; packageName := "b"; version := "1" |}.

Definition left_pad_key : string := "preview-pkg/alice/left-pad@abc1234".

(** An object that was put with its checksum, as the worker does. *)
Definition recorded : R2Object :=
  {| body := [Byte.x00];
     checksums_sha256 := Some gz_digest;
     customMetadata := ("", "left-pad", "abc1234") |}.

(** An object of the same bucket that carries no [sha256] checksum. *)
Definition unrecorded : R2Object :=
  {| body := [Byte.x00];
     checksums_sha256 := None;
     customMetadata := ("", "left-pad", "abc1234") |}.

End ServerExamples.

(** ** A workspace of three packages for the command line *)
Module CliExamples.
Import Cli.

Definition manifest_a : string :=
  Js.json "{'name':'a','version':'1.0.0','dependencies':{'b':'workspace:*'},'peerDependencies':{'b':'workspace:*'}}".
Definition manifest_b : string := Js.json "{'name':'b','version':'1.0.0'}".
Definition manifest_c : string :=
  Js.json "{'name':'c','version':'2.0.0','devDependencies':{'b':'workspace:*'}}".

Definition plain (n v : string) : PackageJson :=
  {| name := Some n; version := Some v; private := false;
     dependencies := None; devDependencies := None; optionalDependencies := None;
     peerDependencies := None; other_fields := ∅ |}.

Definition pkg_a_with (b_version : string) : PackageJson :=
  {| name := Some "a"; version := Some "1.0.0"; private := false;
     dependencies := Some {[ "b" := b_version ]};
     devDependencies := None; optionalDependencies := None;
     peerDependencies := Some {[ "b" := "workspace:*" ]}; other_fields := ∅ |}.

Definition pkg_c_with (b_version : string) : PackageJson :=
  {| name := Some "c"; version := Some "2.0.0"; private := false;
     dependencies := None;
     devDependencies := Some {[ "b" := b_version ]};
     optionalDependencies := None; peerDependencies := None; other_fields := ∅ |}.

Definition pkg_a : PackageJson := pkg_a_with "workspace:*".
Definition pkg_b : PackageJson := plain "b" "1.0.0".
Definition pkg_c : PackageJson := pkg_c_with "workspace:*".

Definition url_b : string := "https://pkg.rx2.dev/alice/b@4f2a9c1".

(** What [JSON.stringify(pJson, null, 2)] prints for the rewritten
    manifests. *)
Definition rewritten_a : string :=
  Js.json "{
  'name': 'a',
  'version': '1.0.0',
  'dependencies': {
    'b': 'https://pkg.rx2.dev/alice/b@4f2a9c1'
  },
  'peerDependencies': {
    'b': 'workspace:*'
  }
}".

Definition rewritten_b : string :=
  Js.json "{
  'name': 'b',
  'version': '1.0.0'
}".

Definition rewritten_c : string :=
  Js.json "{
  'name': 'c',
  'version': '2.0.0',
  'devDependencies': {
    'b': 'https://pkg.rx2.dev/alice/b@4f2a9c1'
  }
}".

Definition parse (contents : string) : option PackageJson :=
  if bool_decide (contents = manifest_a) then Some pkg_a
  else if bool_decide (contents = manifest_b) then Some pkg_b
  else if bool_decide (contents = manifest_c) then Some pkg_c
  else if bool_decide (contents = rewritten_a) then Some (pkg_a_with url_b)
  else if bool_decide (contents = rewritten_b) then Some pkg_b
  else if bool_decide (contents = rewritten_c) then Some (pkg_c_with url_b)
  else None.

Definition stringify (pJson : PackageJson) : string :=
  if bool_decide (pJson = pkg_a_with url_b) then rewritten_a
  else if bool_decide (pJson = pkg_b) then rewritten_b
  else if bool_decide (pJson = pkg_c_with url_b) then rewritten_c
  else "{}".

(** The archive a packing tool leaves: here, a marker and the manifest
    it found. *)
Definition archive (manifest : string) : string := "tgz:" +:+ manifest.

Definition digest (file : string) : string :=
  if bool_decide (file = archive rewritten_a)
  then "3b03857c18375c5830095676ffa5df69f2f440671ddf7f8ee3cee244140b5c17"
  else if bool_decide (file = archive rewritten_b)
  then "5ef0af7b09ffb91b979f492696fce464a1c5a5d2b7a718841fe29ae3127f4301"
  else if bool_decide (file = archive rewritten_c)
  then "a514c74ff12284d4a29675faa0a865caaefb32c192d05d3e8bcd2998acb2b547"
  else "e3b0c44298fc1c149afbf4c8996fb92427ae41e4649b934ca495991b7852b855".



Definition credentials_file : string := "/home/alice/.config/preview-pkg/github-credentials.json".

Definition credentials_text : string :=
  Js.json "{
  'clientId': 'Iv1.preview',
  'scopes': [
    'read:user',
    'user:email'
  ],
  'token': 'alice-token'
}".

Definition alice : Credentials :=
  {| clientId := "Iv1.preview"; scopes := ["read:user"; "user:email"]; token := "alice-token" |}.

Definition created_text : string := Js.json "{'message':'Package created'}".

(** How the outside behaves in a run: the exit code of [git], the
    directories in which the packing tool exits with 1, and those in
    which it exits with 0 but writes no archive. *)
Record Scenario := {
  git_exit : option Z;
  pack_fails : list string;
  pack_silent : list string;
}.

Definition run_tool (sc : Scenario) (command : string) (args : list string)
    (dir : option string) (d : Disk) (w : unit) : ExecResult * Disk * unit :=
  if bool_decide (command = "git") then
    ({| exitCode := git_exit sc;
        stdout := (if bool_decide (git_exit sc = Some 0%Z)
                   then "4f2a9c1e8b7d6a5f4e3d2c1b0a9f8e7d6c5b4a39" +:+ Js.LF else "");
        stderr := (if bool_decide (git_exit sc = Some 0%Z)
                   then "" else "fatal: not a git repository" +:+ Js.LF) |}, d, w)
  else
    let dir := default "" dir in
    if bool_decide (dir ∈ pack_fails sc) then
      ({| exitCode := Some 1%Z; stdout := ""; stderr := "" |}, d, w)
    else if bool_decide (dir ∈ pack_silent sc) then
      ({| exitCode := Some 0%Z; stdout := ""; stderr := "" |}, d, w)
    else
      match d !! join dir "package.json" with
      | Some (File manifest) =>
          match parse manifest with
          | Some pJson =>
              ({| exitCode := Some 0%Z; stdout := ""; stderr := "" |},
               <[join dir (identifier_of pJson +:+ ".tgz") := File (archive manifest)]> d, w)
          | None => ({| exitCode := Some 1%Z; stdout := ""; stderr := "" |}, d, w)
          end
      | _ => ({| exitCode := Some 1%Z; stdout := ""; stderr := "" |}, d, w)
      end.

Definition env (sc : Scenario) : Env unit :=
  {| process_cwd := "/ws";
     glob := fun pattern =>
       if bool_decide (pattern = "packages/*")
       then ["/ws/packages/a"; "/ws/packages/b"; "/ws/packages/c"]
       else [];
     API_URL_BASE := "https://pkg.rx2.dev";
     credentialPath := credentials_file;
     parseCredentials := fun contents =>
       if bool_decide (contents = credentials_text) then Some alice else None;
     JSON_parse := parse;
     JSON_stringify := stringify;
     sha256_hex := digest;
     getAuthenticated := fun tok w =>
       (if bool_decide (tok = "alice-token") then Ok "alice"
        else Throw (Error "Bad credentials"), w);
     x := run_tool sc;
     fetch := fun _ _ _ w =>
       (Ok {| status := 201; statusText := "Created"; text := created_text |}, w);
     parseUploadResponse := fun contents =>
       if bool_decide (contents = created_text)
       then Some {| body_message := Some "Package created"; body_error := None;
                    body_sha256 := None |}
       else None;
     inspect_issues := fun _ => "{ root: [ 'Invalid JSON' ] }";
     inspect_output := fun body => "{ error: '" +:+ default "" (body_error body) +:+ "' }" |}.

Definition all_well : Scenario :=
  {| git_exit := Some 0%Z; pack_fails := []; pack_silent := [] |}.

(** The packing tool exits with 1 in the second of the three packages. *)
Definition b_fails : Scenario :=
  {| git_exit := Some 0%Z; pack_fails := ["/ws/packages/b"]; pack_silent := [] |}.

Definition b_silent : Scenario :=
  {| git_exit := Some 0%Z; pack_fails := []; pack_silent := ["/ws/packages/b"] |}.

Definition no_git : Scenario :=
  {| git_exit := Some 128%Z; pack_fails := []; pack_silent := [] |}.

Definition workspace : Disk :=
  {[ credentials_file := File credentials_text;
     "/ws/packages/a/package.json" := File manifest_a;
     "/ws/packages/b/package.json" := File manifest_b;
     "/ws/packages/c/package.json" := File manifest_c ]}.

Definition start : State unit := {| disk := workspace; world := tt; trace := [] |}.

(** The map PASS 1 builds for the three packages. *)
Definition deps : Dict :=
  {[ "a" := "https://pkg.rx2.dev/alice/a@4f2a9c1";
     "b" := url_b;
     "c" := "https://pkg.rx2.dev/alice/c@4f2a9c1" ]}.

Definition pack_b : PackOptions :=
  {| packageManager := npm; cwd := "/ws/packages/b";
     packageIdentifier := "b-1.0.0"; keepFile := false |}.

Definition after_credentials : State unit :=
  {| disk := workspace; world := tt; trace := [EvReadFile credentials_file] |}.

Definition all_packages : Input :=
  {| patterns := ["packages/*"]; packer := npm; input_version := None |}.

End CliExamples.

(** * Properties of the worker *)
Section ServerFacts.
Import Server.

Lemma lower_class_not_at a : lower_class a = true -> a <> "@"%char.
Proof. intros H ->. vm_compute in H. discriminate. Qed.

Lemma mixed_class_not_slash a : mixed_class a = true -> a <> "/"%char.
Proof. intros H ->. vm_compute in H. discriminate. Qed.

Lemma cons_app (a : ascii) (s : string) : String a "" +:+ s = String a s.
Proof. reflexivity. Qed.

Lemma string_app_nil_r (s : string) : s +:+ "" = s.
Proof.
  induction s as [|a s IH]; [done|].
  change (String a (s +:+ "") = String a s). by rewrite IH.
Qed.

Lemma string_app_assoc (s1 s2 s3 : string) : (s1 +:+ s2) +:+ s3 = s1 +:+ (s2 +:+ s3).
Proof.
  induction s1 as [|a s1 IH]; [done|].
  change (String a ((s1 +:+ s2) +:+ s3) = String a (s1 +:+ (s2 +:+ s3))). by rewrite IH.
Qed.


(** Two strings free of [c], each followed by [c], are split alike. *)
Lemma app_sep_inj (P : ascii -> bool) (c : ascii) :
  (forall a, P a = true -> a <> c) ->
  forall u1 u2 r1 r2,
    Js.all_chars P u1 = true -> Js.all_chars P u2 = true ->
    u1 +:+ String c r1 = u2 +:+ String c r2 -> u1 = u2 /\ r1 = r2.
Proof.
  intros HP. induction u1 as [|a u1 IH]; intros [|b u2] r1 r2 H1 H2 E; simpl in *.
  - by injection E as ->.
  - apply andb_true_iff in H2 as [Hb _]. injection E as E _.
    by destruct (HP b Hb).
  - apply andb_true_iff in H1 as [Ha _]. injection E as E _.
    by destruct (HP a Ha).
  - apply andb_true_iff in H1 as [_ H1]. apply andb_true_iff in H2 as [_ H2].
    injection E as -> E. destruct (IH _ _ _ H1 H2 E) as [-> ->]. done.
Qed.

Lemma GithubUsername_chars u :
  GithubUsername u = true -> Js.all_chars mixed_class u = true.
Proof.
  unfold GithubUsername, MixedCaseAlphaNumericWithDashRegex, Js.matches_plus.
  intros [_ H]%andb_true_iff. by destruct u.
Qed.

Lemma coordinate_field_head s :
  coordinate_field s = true ->
  exists a s', s = String a s' /\ lower_class a = true.
Proof.
  unfold coordinate_field, LowercaseAlphaNumericWithDashRegex, Js.matches_plus.
  intros [_ H]%andb_true_iff. destruct s as [|a s']; [done|].
  simpl in H. apply andb_true_iff in H as [Ha _]. eauto.
Qed.

Lemma coordinate_field_truthy s : coordinate_field s = true -> Js.truthy (Some s) = true.
Proof. intros (a & s' & -> & _)%coordinate_field_head. done. Qed.

Lemma key_of_format identity c :
  valid_coordinate c = true -> key_of identity c = spec_key identity c.
Proof.
  unfold valid_coordinate, key_of, storageKey, spec_key, spec_keyname. simpl.
  destruct (org c) as [o|]; [|done].
  intros [[Ho%coordinate_field_truthy _]%andb_true_iff _]%andb_true_iff.
  by rewrite Ho.
Qed.

Lemma spec_key_disjoint id1 id2 s u :
  GithubUsername id1 = true -> GithubUsername id2 = true ->
  coordinate_field (packageName u) = true ->
  is_Some (org s) -> org u = None ->
  spec_key id1 s <> spec_key id2 u.
Proof.
  intros H1%GithubUsername_chars H2%GithubUsername_chars Hn [o Ho] Hu.
  unfold spec_key, spec_keyname. rewrite Ho, Hu.
  intros E%(inj (String.app _)).
  apply (app_sep_inj mixed_class "/" mixed_class_not_slash _ _ _ _ H1 H2) in E as [_ E].
  apply coordinate_field_head in Hn as (a & n' & Hn & Ha).
  rewrite Hn in E. injection E as E _. by destruct (lower_class_not_at a Ha).
Qed.

(** C5. The storage key is [preview-pkg/{identity}/{keyname}@{version}];
    the scoped coordinate a/b and the unscoped coordinate a__b get
    distinct keys for every identity and version; and under the charset
    invariant no scoped coordinate shares a key with an unscoped one,
    whatever the two identities. *)
Theorem storageKey_scoped_unscoped_disjoint :
  (forall identity ver,
      key_of identity {| org := Some "a"; packageName := "b"; version := ver |}
      <> key_of identity {| org := None; packageName := "a__b"; version := ver |})
  /\ (forall identity c,
        valid_coordinate c = true -> key_of identity c = spec_key identity c)
  /\ (forall id1 id2 s u,
        GithubUsername id1 = true -> GithubUsername id2 = true ->
        valid_coordinate s = true -> valid_coordinate u = true ->
        is_Some (org s) -> org u = None ->
        key_of id1 s <> key_of id2 u).
Proof.
  split; [|split].
  - intros identity ver. unfold key_of, storageKey. simpl.
    intros E%(inj (String.app _))%(inj (String.app _)).
    vm_compute in E. discriminate.
  - apply key_of_format.
  - intros id1 id2 s u H1 H2 Hs Hu Hscoped Hunscoped.
    rewrite !key_of_format by done.
    apply spec_key_disjoint; try done.
    unfold valid_coordinate in Hu.
    by apply andb_true_iff in Hu as [[_ ?]%andb_true_iff _].
Qed.

Lemma storageKey_scoped_unscoped_disjoint_witness :
  GithubUsername "alice" = true /\ GithubUsername "Bob-2" = true
  /\ valid_coordinate ServerExamples.scoped_b = true
  /\ valid_coordinate ServerExamples.left_pad = true
  /\ key_of "alice" ServerExamples.scoped_b = spec_key "alice" ServerExamples.scoped_b
  /\ key_of "alice" ServerExamples.scoped_b <> key_of "Bob-2" ServerExamples.left_pad.
Proof.
  repeat split; try reflexivity.
  apply (proj2 (proj2 storageKey_scoped_unscoped_disjoint));
    first [reflexivity | by eexists].
Defined.

(** *** Upload *)

Lemma post_route_other_key env req b :
  forall r b' ev, post_route env req b = (r, b', ev) ->
    b' = b \/ exists k o, b' = <[k := o]> b /\
                          (forall old d, b !! k = Some old -> checksums_sha256 old = Some d -> False).
Proof.
  intros r b' ev. unfold post_route, post_handler.
  repeat case_match; intros; simplify_eq; eauto;
    right; eexists _, _; (split; [done|]); intros; simplify_eq/=;
    unfold STORAGE_head in *; simplify_eq/=.
Qed.

(** Every object the worker itself stores carries a sha256 checksum: a
    bucket in which all objects have one stays so under any upload. *)
Lemma post_route_records_checksum env req (b : Bucket) :
  (forall k o, b !! k = Some o -> is_Some (checksums_sha256 o)) ->
  forall k o, (post_route env req b).1.2 !! k = Some o -> is_Some (checksums_sha256 o).
Proof.
  intros Hb k o. unfold post_route, post_handler.
  repeat case_match; simpl; try apply Hb.
  all: rewrite lookup_insert_Some; intros [[_ <-]|[_ Ho]]; [by eexists|by eapply Hb].
Qed.

(** C2, as amended. At a key whose object has a recorded sha256
    checksum, no upload changes the stored object; and an upload that
    passes the validators and authentication for that key is answered
    409 with the recorded checksum in hex, whatever bytes and checksum it
    carries, without [put] being called. *)
Theorem post_keeps_recorded_object env req b key obj digest :
  b !! key = Some obj ->
  checksums_sha256 obj = Some digest ->
  (post_route env req b).1.2 !! key = Some obj
  /\ (forall username info tarball sha256 authorization,
        validatePackageParams (param_username req) (param_package req)
          = ParamsValid username info ->
        tarball_schema (form_tarball req) = Some tarball ->
        sha256_schema (form_sha256 req) = Some sha256 ->
        header_authorization req = Some authorization ->
        getAuthenticated env authorization = Some username ->
        key_of username info = key ->
        post_route env req b
        = (Json 409 (AlreadyExists ("Package " +:+ display_name info +:+ " already exists")
                                   (Js.toHex digest)),
           b, [EvAuth authorization; EvHead key])).
Proof.
  intros Hobj Hdigest. split.
  - destruct (post_route env req b) as [[r b'] ev] eqn:E. simpl.
    apply post_route_other_key in E as [->|(k & o & -> & Hk)]; [done|].
    destruct (decide (k = key)) as [->|Hne].
    + destruct (Hk _ _ Hobj Hdigest).
    + by rewrite lookup_insert_ne.
  - intros username info tarball sha256 authorization Hp Ht Hs Hh Ha Hkey.
    unfold post_route, post_handler. rewrite Hp, Ht, Hs, Hh, Ha, Hkey.
    rewrite bool_decide_eq_true_2 by done. simpl.
    unfold STORAGE_head. rewrite Hobj. destruct obj as [? [?|] ?]; by simplify_eq/=.
Qed.

Lemma post_keeps_recorded_object_witness :
  let b : Bucket := {[ ServerExamples.left_pad_key := ServerExamples.recorded ]} in
  let req := ServerExamples.upload "left-pad@abc1234" ServerExamples.gz_sha256 in
  b !! ServerExamples.left_pad_key = Some ServerExamples.recorded
  /\ checksums_sha256 ServerExamples.recorded = Some ServerExamples.gz_digest
  /\ (post_route ServerExamples.env req b).1.2 !! ServerExamples.left_pad_key
     = Some ServerExamples.recorded
  /\ status_of (post_route ServerExamples.env req b).1.1 = 409.
Proof.
  intros b req.
  assert (Hobj : b !! ServerExamples.left_pad_key = Some ServerExamples.recorded)
    by reflexivity.
  assert (Hdigest : checksums_sha256 ServerExamples.recorded = Some ServerExamples.gz_digest)
    by reflexivity.
  destruct (post_keeps_recorded_object ServerExamples.env req b
              ServerExamples.left_pad_key ServerExamples.recorded
              ServerExamples.gz_digest Hobj Hdigest) as [Hkeep Hconflict].
  split; [exact Hobj|]. split; [exact Hdigest|]. split; [exact Hkeep|].
  rewrite (Hconflict "alice" ServerExamples.left_pad ServerExamples.gz
             ServerExamples.gz_sha256 "Bearer alice-token");
    reflexivity.
Defined.

(** C2 as stated fails: an object that exists without a sha256 checksum
    is overwritten by an accepted upload. *)
Lemma post_overwrites_unrecorded_object :
  let b : Bucket := {[ ServerExamples.left_pad_key := ServerExamples.unrecorded ]} in
  let req := ServerExamples.upload "left-pad@abc1234" ServerExamples.gz_sha256 in
  STORAGE_head b ServerExamples.left_pad_key = Some ServerExamples.unrecorded
  /\ (post_route ServerExamples.env req b).1.1 = Json 201 PackageCreated
  /\ body <$> (post_route ServerExamples.env req b).1.2 !! ServerExamples.left_pad_key
     = Some ServerExamples.gz
  /\ ServerExamples.gz <> body ServerExamples.unrecorded.
Proof. vm_compute. repeat split; discriminate. Qed.

(** *** Fetch *)

(** C8, as amended. For a request whose identity and coordinate pass
    validation, the archive bytes are served with the content type
    [application/tar+gzip] whenever an object is stored at the key,
    with or without a sha256 checksum, and the answer is 404 exactly
    when no object is stored there. *)
Theorem get_route_found_or_404 username package b u info :
  validatePackageParams username package = ParamsValid u info ->
  (forall obj, b !! key_of u info = Some obj ->
     (get_route username package b).1 = Tarball 200 "application/tar+gzip" (body obj))
  /\ (b !! key_of u info = None ->
      (get_route username package b).1 = Json 404 PackageNotFound).
Proof.
  intros Hp. unfold get_route, STORAGE_head, STORAGE_get. rewrite Hp.
  split.
  - intros obj Hobj. by rewrite Hobj.
  - intros Hnone. by rewrite Hnone.
Qed.

Lemma get_route_found_or_404_witness :
  let b : Bucket := {[ ServerExamples.left_pad_key := ServerExamples.recorded ]} in
  validatePackageParams "alice" "left-pad@abc1234"
    = ParamsValid "alice" ServerExamples.left_pad
  /\ (get_route "alice" "left-pad@abc1234" b).1
     = Tarball 200 "application/tar+gzip" (body ServerExamples.recorded)
  /\ (get_route "alice" "left-pad@abc1234" ∅).1 = Json 404 PackageNotFound.
Proof.
  intros b.
  assert (Hp : validatePackageParams "alice" "left-pad@abc1234"
               = ParamsValid "alice" ServerExamples.left_pad) by reflexivity.
  split; [exact Hp|]. split.
  - apply (proj1 (get_route_found_or_404 _ _ b _ _ Hp)). reflexivity.
  - apply (proj2 (get_route_found_or_404 _ _ ∅ _ _ Hp)). reflexivity.
Defined.

(** C8 as stated fails: an object whose checksum is missing is served,
    not reported as not found. *)
Lemma get_route_serves_unrecorded_object :
  let b : Bucket := {[ ServerExamples.left_pad_key := ServerExamples.unrecorded ]} in
  checksums_sha256 ServerExamples.unrecorded = None
  /\ get_route "alice" "left-pad@abc1234" b
     = (Tarball 200 "application/tar+gzip" (body ServerExamples.unrecorded),
        [EvHead ServerExamples.left_pad_key; EvGet ServerExamples.left_pad_key]).
Proof. split; reflexivity. Qed.

(** *** The form validator *)

Lemma bad_form_rejected req :
  oversized req \/ bad_sha256_length req ->
  tarball_schema (form_tarball req) = None \/ sha256_schema (form_sha256 req) = None.
Proof.
  intros [(f & bytes & -> & Hsize)|(s & -> & Hlen)]; [left|right]; simpl.
  - by rewrite (proj2 (Z.gtb_gt _ _)) by lia.
  - by rewrite (proj2 (Nat.eqb_neq _ _)).
Qed.

(** An oversized tarball or a checksum field of the wrong length never
    reaches GitHub or the bucket: the answer is the 400 of a validator,
    unless the parameter transform has thrown before. *)
Lemma post_route_bad_form env req b :
  oversized req \/ bad_sha256_length req ->
  post_route env req b = (Json 400 InvalidPackageFormat, b, [])
  \/ (transform (param_package req) = None /\ post_route env req b = (Uncaught, b, [])).
Proof.
  intros Hbad%bad_form_rejected. unfold post_route, validatePackageParams.
  destruct (transform (param_package req)) as [raw|]; [left|by right].
  destruct (checkPackageInfo raw); [|done].
  destruct (GithubUsername _); [|done].
  destruct Hbad as [->| ->]; [done|]. by destruct (tarball_schema _).
Qed.

(** C10 at the request [POST /alice/@scope] with a three-character
    checksum: the parameter transform throws on the missing [/], the
    route answers 500 instead of the 400 of a validator. *)
Theorem post_route_scope_without_slash :
  bad_sha256_length (ServerExamples.upload "@scope" "abc")
  /\ transform "@scope" = None
  /\ post_route ServerExamples.env (ServerExamples.upload "@scope" "abc") ∅
     = (Uncaught, ∅, [])
  /\ status_of Uncaught = 500.
Proof.
  split; [|by repeat split].
  exists "abc". split; [reflexivity|]. simpl. lia.
Qed.

End ServerFacts.

(** * Properties of the command line *)
Section CliFacts.
Import Cli.
Context {World : Type} (env : Env World).

(** ** The monad *)

Lemma bind_ok {A B} (m : M World A) (k : A -> M World B) s a s' :
  m s = (Ok a, s') -> (m ≫= k) s = k a s'.
Proof. intros E. unfold mbind, M_bind, bind. by rewrite E. Qed.

Lemma bind_throw {A B} (m : M World A) (k : A -> M World B) s e s' :
  m s = (Throw e, s') -> (m ≫= k) s = (Throw e, s').
Proof. intros E. unfold mbind, M_bind, bind. by rewrite E. Qed.

Lemma readFile_file path contents (s : State World) :
  disk s !! path = Some (File contents) ->
  readFile path s
  = (Ok contents, {| disk := disk s; world := world s;
                     trace := trace s ++ [EvReadFile path] |}).
Proof.
  intros E. unfold readFile, emit, get_disk, mbind, M_bind, bind, mret, M_ret, ret.
  simpl. by rewrite E.
Qed.

Lemma writeFile_ok path contents (s : State World) :
  (forall size, disk s !! path <> Some (Dir size)) ->
  writeFile path contents s
  = (Ok tt, {| disk := <[path := File contents]> (disk s); world := world s;
               trace := trace s ++ [EvWriteFile path contents] |}).
Proof.
  intros E. unfold writeFile, emit, get_disk, set_disk, mbind, M_bind, bind. simpl.
  destruct (disk s !! path) as [[c|size]|] eqn:Hd; try done. by destruct (E size).
Qed.

(** ** Decoding *)

Lemma utf8_decode_from_valid bytes :
  forall st,
    Js.valid_utf8_from st bytes = true ->
    Js.utf8_decode_from st bytes = Js.pending_of st +:+ bytes.
Proof.
  induction bytes as [|a rest IH]; intros st Hvalid.
  - destruct st as [[[[p n] lo] hi]|]; [done|reflexivity].
  - destruct st as [[[[p n] lo] hi]|]; cbn [Js.valid_utf8_from] in Hvalid;
      cbn [Js.utf8_decode_from Js.pending_of].
    + apply andb_true_iff in Hvalid as [-> Hvalid].
      destruct n as [|[|n]]; rewrite (IH _ Hvalid); cbn [Js.pending_of];
        change ("" +:+ rest) with rest; by rewrite string_app_assoc, cons_app.
    + change ("" +:+ String a rest) with (String a rest).
      destruct (Js.classify a); [| |done]; rewrite (IH _ Hvalid); cbn [Js.pending_of].
      * reflexivity.
      * by rewrite cons_app.
Qed.

(** Well-formed bytes are decoded to themselves. *)
Lemma utf8_decode_valid bytes :
  Js.valid_utf8 bytes = true -> Js.utf8_decode bytes = bytes.
Proof. apply (utf8_decode_from_valid bytes None). Qed.

Lemma string_app_nonempty (s t : string) : t <> "" -> s +:+ t <> "".
Proof. destruct s; [done|]. intros _. discriminate. Qed.

Lemma utf8_decode_from_nonempty bytes :
  forall st, st <> None \/ bytes <> "" -> Js.utf8_decode_from st bytes <> "".
Proof.
  induction bytes as [|a rest IH]; intros st Hne.
  - destruct st; [discriminate|]. by destruct Hne.
  - assert (Hfresh : match Js.classify a with
                     | Js.One => String a (Js.utf8_decode_from None rest)
                     | Js.Lead n lo hi =>
                         Js.utf8_decode_from (Some (String a "", n, lo, hi)) rest
                     | Js.Bad => Js.REPLACEMENT +:+ Js.utf8_decode_from None rest
                     end <> "").
    { destruct (Js.classify a); [discriminate|apply IH; by left|discriminate]. }
    destruct st as [[[[p n] lo] hi]|]; cbn [Js.utf8_decode_from]; [|exact Hfresh].
    destruct (Js.between lo hi a); [|discriminate].
    destruct n as [|[|n]]; try (apply IH; by left);
      rewrite string_app_assoc, cons_app; by apply string_app_nonempty.
Qed.

Lemma utf8_decode_nonempty bytes : bytes <> "" -> Js.utf8_decode bytes <> "".
Proof. intros Hne. apply utf8_decode_from_nonempty. by right. Qed.

Lemma readFile_utf8_file path contents (s : State World) :
  disk s !! path = Some (File contents) ->
  readFile_utf8 path s
  = (Ok (Js.utf8_decode contents),
     {| disk := disk s; world := world s; trace := trace s ++ [EvReadFile path] |}).
Proof.
  intros E. unfold readFile_utf8. by rewrite (bind_ok _ _ _ _ _ (readFile_file _ _ _ E)).
Qed.

(** ** Rewriting *)

Lemma hijack_step_lookup_ne newDep url (o : Dict) k :
  k <> newDep -> hijack_step newDep url o !! k = o !! k.
Proof.
  intros Hne. unfold hijack_step, js_set. repeat case_match; try done.
  by rewrite lookup_insert_ne.
Qed.

Lemma hijack_step_lookup_eq newDep url (o1 o2 : Dict) :
  o1 !! newDep = o2 !! newDep ->
  hijack_step newDep url o1 !! newDep = hijack_step newDep url o2 !! newDep.
Proof.
  intros E. unfold hijack_step, js_in, js_set. rewrite E.
  repeat case_match; try done; by rewrite ?lookup_insert_eq.
Qed.

(** The steps for two different keys commute: the order in which the
    map is visited does not matter. *)
Lemma hijack_step_comm k1 u1 k2 u2 (o : Dict) :
  k1 <> k2 ->
  hijack_step k1 u1 (hijack_step k2 u2 o) = hijack_step k2 u2 (hijack_step k1 u1 o).
Proof.
  intros Hne. apply map_eq. intros k.
  destruct (decide (k = k1)) as [->|H1]; [|destruct (decide (k = k2)) as [->|H2]].
  - rewrite (hijack_step_lookup_ne k2) by done.
    apply hijack_step_lookup_eq. by rewrite hijack_step_lookup_ne.
  - rewrite (hijack_step_lookup_ne k1) by done.
    symmetry. apply hijack_step_lookup_eq. by rewrite hijack_step_lookup_ne.
  - by rewrite !hijack_step_lookup_ne.
Qed.

(** What [hijackDeps] leaves at each key. *)
Lemma hijackDeps_lookup (newDeps old : Dict) k :
  map_fold hijack_step old newDeps !! k
  = match newDeps !! k with
    | Some url => hijack_step k url old !! k
    | None => old !! k
    end.
Proof.
  revert k.
  apply (map_fold_weak_ind
           (fun r m => forall k, r !! k = match m !! k with
                                         | Some url => hijack_step k url old !! k
                                         | None => old !! k
                                         end)).
  - intros k. by rewrite lookup_empty.
  - intros i url m r Hi IH k. destruct (decide (k = i)) as [->|Hne].
    + rewrite lookup_insert_eq. apply hijack_step_lookup_eq.
      by rewrite IH, Hi.
    + rewrite lookup_insert_ne by done. rewrite hijack_step_lookup_ne by done. apply IH.
Qed.

Lemma hijackDeps_rewrites (deps old : Dict) dep url :
  deps !! dep = Some url -> is_Some (old !! dep) ->
  exists new, hijackDeps deps (Some old) = Some new /\ new !! dep = Some url.
Proof.
  intros Hdep [v Hv]. eexists. split; [reflexivity|].
  rewrite hijackDeps_lookup, Hdep. unfold hijack_step, js_in, js_set. rewrite Hv.
  rewrite bool_decide_eq_true_2 by eauto. simpl.
  rewrite andb_false_r. apply lookup_insert_eq.
Qed.

Lemma hijackDeps_keeps (deps old : Dict) k :
  deps !! k = None ->
  exists new, hijackDeps deps (Some old) = Some new /\ new !! k = old !! k.
Proof.
  intros Hk. eexists. split; [reflexivity|]. by rewrite hijackDeps_lookup, Hk.
Qed.

Lemma writeDeps_ok pJsonPath originalContents pJson (deps : Dict) (s : State World) :
  (forall size, disk s !! pJsonPath <> Some (Dir size)) ->
  writeDeps env pJsonPath originalContents pJson deps s
  = (Ok (hijacked deps pJson,
         {| restore_path := pJsonPath; restore_contents := originalContents |}),
     {| disk := <[pJsonPath := File (JSON_stringify env (hijacked deps pJson))]> (disk s);
        world := world s;
        trace := trace s ++ [EvWriteFile pJsonPath (JSON_stringify env (hijacked deps pJson))] |}).
Proof.
  intros Hd. unfold writeDeps.
  by rewrite (bind_ok _ _ _ _ _ (writeFile_ok _ _ _ Hd)).
Qed.

(** C6. For a name that is a key of the dependency map, the rewrite puts
    the mapped URL in place of the version in the runtime, the
    development and the optional dependencies, each on its own, and
    leaves the peer dependencies as they were; that rewritten manifest
    is what [writeDeps] writes. *)
Theorem writeDeps_rewrites_three_classes (deps : Dict) (pJson : PackageJson) dep url :
  deps !! dep = Some url ->
  (forall old, dependencies pJson = Some old -> is_Some (old !! dep) ->
     exists new, dependencies (hijacked deps pJson) = Some new /\ new !! dep = Some url)
  /\ (forall old, devDependencies pJson = Some old -> is_Some (old !! dep) ->
       exists new, devDependencies (hijacked deps pJson) = Some new /\ new !! dep = Some url)
  /\ (forall old, optionalDependencies pJson = Some old -> is_Some (old !! dep) ->
       exists new, optionalDependencies (hijacked deps pJson) = Some new
                   /\ new !! dep = Some url)
  /\ peerDependencies (hijacked deps pJson) = peerDependencies pJson
  /\ (forall pJsonPath originalContents (s : State World),
        (forall size, disk s !! pJsonPath <> Some (Dir size)) ->
        exists r s',
          writeDeps env pJsonPath originalContents pJson deps s
          = (Ok (hijacked deps pJson, r), s')
          /\ disk s' !! pJsonPath
             = Some (File (JSON_stringify env (hijacked deps pJson)))).
Proof.
  intros Hdep. repeat split.
  - intros old Hold Hown. simpl. rewrite Hold. by apply hijackDeps_rewrites.
  - intros old Hold Hown. simpl. rewrite Hold. by apply hijackDeps_rewrites.
  - intros old Hold Hown. simpl. rewrite Hold. by apply hijackDeps_rewrites.
  - intros pJsonPath originalContents s Hd. eexists _, _.
    split; [by apply writeDeps_ok|]. apply lookup_insert_eq.
Qed.


(** ** Version resolution *)

Lemma call_x_run command args dir (s : State World) res d w :
  x env command args dir (disk s) (world s) = (res, d, w) ->
  call_x env command args dir s
  = (Ok res, {| disk := d; world := w; trace := trace s ++ [EvExec command args dir] |}).
Proof. intros E. unfold call_x. by rewrite E. Qed.

Lemma resolveVersion_git explicit (s0 : State World) git d w :
  Js.truthy explicit = false ->
  x env "git" ["rev-parse"; "HEAD"] None (disk s0) (world s0) = (git, d, w) ->
  resolveVersion env explicit s0
  = if bool_decide (exitCode git = Some 0%Z)
    then (Ok (Some (Js.slice0 7 (Js.trim (stdout git)))),
          {| disk := d; world := w;
             trace := trace s0 ++ [EvExec "git" ["rev-parse"; "HEAD"] None] |})
    else (Ok None,
          {| disk := d; world := w;
             trace := ((trace s0 ++ [EvExec "git" ["rev-parse"; "HEAD"] None])
                       ++ [EvLog Err "Failed to get the Git commit hash, please pass in version manually with --version flag"])
                      ++ [EvLog Outro "Version detection failed"] |}).
Proof.
  intros Hnone Hgit. unfold resolveVersion. rewrite Hnone. cbn [negb].
  rewrite (bind_ok _ _ _ _ _ (call_x_run _ _ _ _ _ _ _ Hgit)).
  by case_bool_decide.
Qed.

Lemma getCredentials_total (s : State World) :
  exists c s', getCredentials env s = (Ok c, s').
Proof.
  unfold getCredentials, catch_null, mbind, M_bind, bind.
  unfold readFile_utf8, mbind, M_bind, bind.
  destruct (readFile (credentialPath env) s) as [[contents|e] s1]; simpl; [|eauto].
  destruct (Js.utf8_decode contents) as [|a decoded]; simpl; [eauto|].
  destruct (parseCredentials env _); simpl; [eauto|].
  destruct (unlink (credentialPath env) _) as [[[]|e] s2]; eauto.
Qed.

(** Without credentials the run ends before anything else is done. *)
Lemma publish_without_credentials input (s s0 : State World) :
  getCredentials env s = (Ok None, s0) ->
  publish env input s
  = (Ok AuthenticationRequired,
     {| disk := disk s0; world := world s0;
        trace := (trace s0
                  ++ [EvLog Err "Please login using GitHub with `preview-pkg login` before publishing packages."])
                 ++ [EvLog Outro "Authentication required"] |}).
Proof. intros Hcred. unfold publish. by rewrite (bind_ok _ _ _ _ _ Hcred). Qed.

(** C9. Without an explicit version, the run asks [git rev-parse HEAD]
    once: on exit status 0 every later step runs with the first seven
    characters of the trimmed output as the publish version; on any
    other status the run ends there, having only logged the failure: no
    manifest is read, nothing is written, packed or uploaded. *)
Theorem publish_version_from_revision input (s s0 : State World) credentials git d w :
  Js.truthy (input_version input) = false ->
  getCredentials env s = (Ok (Some credentials), s0) ->
  x env "git" ["rev-parse"; "HEAD"] None (disk s0) (world s0) = (git, d, w) ->
  (exitCode git = Some 0%Z ->
     publish env input s
     = publish_packages env credentials input (expand_paths env input)
         (Js.slice0 7 (Js.trim (stdout git)))
         {| disk := d; world := w;
            trace := trace s0 ++ [EvExec "git" ["rev-parse"; "HEAD"] None] |})
  /\ (exitCode git <> Some 0%Z ->
      publish env input s
      = (Ok VersionDetectionFailed,
         {| disk := d; world := w;
            trace := ((trace s0 ++ [EvExec "git" ["rev-parse"; "HEAD"] None])
                      ++ [EvLog Err "Failed to get the Git commit hash, please pass in version manually with --version flag"])
                     ++ [EvLog Outro "Version detection failed"] |})).
Proof.
  intros Hnone Hcred Hgit. unfold publish.
  rewrite (bind_ok _ _ _ _ _ Hcred). cbv zeta.
  pose proof (resolveVersion_git _ _ _ _ _ Hnone Hgit) as Hres.
  split; intros Hexit.
  - rewrite bool_decide_eq_true_2 in Hres by done.
    by rewrite (bind_ok _ _ _ _ _ Hres).
  - rewrite bool_decide_eq_false_2 in Hres by done.
    by rewrite (bind_ok _ _ _ _ _ Hres).
Qed.

(** ** Packing *)

(** On a nonzero exit status [pack] throws the error whose message
    carries the trimmed output of the tool. *)
Lemma pack_nonzero_exit options (s : State World) res d w :
  x env (pm_name (packageManager options)) (packArgs options) (Some (cwd options))
    (disk s) (world s) = (res, d, w) ->
  exitCode res <> Some 0%Z ->
  pack env options s
  = (Throw (Error (pack_failure options (Js.trim (stdout res +:+ stderr res)))),
     {| disk := d; world := w;
        trace := trace s ++ [EvExec (pm_name (packageManager options)) (packArgs options)
                                    (Some (cwd options))] |}).
Proof.
  intros Hx Hexit. unfold pack.
  rewrite (bind_ok _ _ _ _ _ (call_x_run _ _ _ _ _ _ _ Hx)).
  by rewrite bool_decide_eq_false_2.
Qed.

(** On exit status 0 with no file at the expected place, the error that
    leaves [pack] is the one of [stat]. *)
Lemma pack_missing_output options (s : State World) res d w :
  x env (pm_name (packageManager options)) (packArgs options) (Some (cwd options))
    (disk s) (world s) = (res, d, w) ->
  exitCode res = Some 0%Z ->
  d !! join (cwd options) (packageIdentifier options +:+ ".tgz") = None ->
  (pack env options s).1
  = Throw (SystemError "ENOENT" "stat"
             (join (cwd options) (packageIdentifier options +:+ ".tgz"))).
Proof.
  intros Hx Hexit Hnone. unfold pack.
  rewrite (bind_ok _ _ _ _ _ (call_x_run _ _ _ _ _ _ _ Hx)).
  rewrite bool_decide_eq_true_2 by done. simpl.
  unfold catch_null, readFile, stat, emit, get_disk, throw, mbind, M_bind, bind. simpl.
  rewrite Hnone. simpl. by rewrite Hnone.
Qed.

(** The internal error is thrown when the expected place cannot be read
    as a file but [stat] succeeds on it: a directory. *)
Lemma pack_unreadable_output options (s : State World) res d w size :
  x env (pm_name (packageManager options)) (packArgs options) (Some (cwd options))
    (disk s) (world s) = (res, d, w) ->
  exitCode res = Some 0%Z ->
  d !! join (cwd options) (packageIdentifier options +:+ ".tgz") = Some (Dir size) ->
  (pack env options s).1 = Throw (Error pack_invariant_violation).
Proof.
  intros Hx Hexit Hdir. unfold pack.
  rewrite (bind_ok _ _ _ _ _ (call_x_run _ _ _ _ _ _ _ Hx)).
  rewrite bool_decide_eq_true_2 by done. simpl.
  unfold catch_null, readFile, stat, emit, get_disk, throw, mbind, M_bind, bind. simpl.
  rewrite Hdir. simpl. by rewrite Hdir.
Qed.

(** ** PASS 1 *)

Lemma readPackageJson_total path (s : State World) :
  exists r s', readPackageJson env path s = (Ok r, s').
Proof.
  unfold readPackageJson, try_catch.
  destruct ((readFile_utf8 path ≫= _) s) as [[a|e] s'] eqn:E; eauto.
Qed.

(** One path either leaves the accumulators alone or appends its entry
    and sets the map at its name. *)
Lemma scan_step_cases username ver acc p (s : State World) :
  exists s',
    scan_step env username ver acc p s = (Ok acc, s')
    \/ exists pJson,
         scan_step env username ver acc p s
         = (Ok (<[name_of pJson := packageUrlOf env username ver pJson]> acc.1,
                acc.2 ++ [{| entry_path := p; entry_pJson := pJson |}]), s').
Proof.
  unfold scan_step.
  destruct (readPackageJson_total (join p "package.json") s) as (r & s' & Hr).
  rewrite (bind_ok _ _ _ _ _ Hr).
  destruct r as [pJson|]; [|eexists; left; reflexivity].
  destruct (Js.truthy (name pJson)); [|eexists; left; reflexivity].
  destruct (private pJson); [eexists; left; reflexivity|].
  destruct (Js.truthy (version pJson)); [|eexists; left; reflexivity].
  eexists; right; eexists; reflexivity.
Qed.

Lemma for_of_cons {A B} (a : A) (l : list A) (body : B -> A -> M World B) acc s :
  for_of (a :: l) body acc s
  = match body acc a s with
    | (Ok acc', s') => for_of l body acc' s'
    | (Throw e, s') => (Throw e, s')
    end.
Proof. reflexivity. Qed.

(** The scan never throws; the map it returns is the one obtained by
    setting, for each kept package in order, the URL at its name. *)
Lemma scan_from username ver paths :
  forall acc (s : State World),
  exists new s',
    for_of paths (scan_step env username ver) acc s
    = (Ok (foldl (fun d e => <[name_of (entry_pJson e)
                               := packageUrlOf env username ver (entry_pJson e)]> d)
                 acc.1 new,
           acc.2 ++ new), s')
    /\ sublist (entry_path <$> new) paths.
Proof.
  induction paths as [|p paths IH]; intros [deps infos] s.
  - exists [], s. simpl. rewrite app_nil_r. split; [done|constructor].
  - rewrite for_of_cons.
    destruct (scan_step_cases username ver (deps, infos) p s) as (s1 & [E|(pJson & E)]);
      cbn [fst snd] in E; rewrite E.
    + destruct (IH (deps, infos) s1) as (new & s' & Hrun & Hsub).
      exists new, s'. split; [done|]. by apply sublist_cons.
    + destruct (IH (<[name_of pJson := packageUrlOf env username ver pJson]> deps,
                    infos ++ [{| entry_path := p; entry_pJson := pJson |}]) s1)
        as (new & s' & Hrun & Hsub).
      exists ({| entry_path := p; entry_pJson := pJson |} :: new), s'.
      rewrite Hrun. simpl. rewrite <- app_assoc. split; [done|].
      by apply sublist_skip.
Qed.

Lemma foldl_set_lookup_other {A} (key : A -> string) (val : A -> string)
    (l : list A) (d : Dict) k :
  (forall e, e ∈ l -> key e <> k) ->
  foldl (fun d e => <[key e := val e]> d) d l !! k = d !! k.
Proof.
  revert d. induction l as [|e l IH]; intros d Hl; [done|]. simpl.
  rewrite IH by (intros e' He'; apply Hl; by right).
  apply lookup_insert_ne, Hl. by left.
Qed.

(** C7. The scan always returns; the kept packages come in the order of
    the paths; and for every kept package after which no kept package
    has the same name, the map holds, at that name, the URL derived
    from that package: the last one discovered with a name decides. *)
Theorem scan_last_discovered_wins username publishingVersion paths (s : State World) :
  exists deps packageInfos s',
    scan env username publishingVersion paths s = (Ok (deps, packageInfos), s')
    /\ sublist (entry_path <$> packageInfos) paths
    /\ forall before e after,
         packageInfos = before ++ e :: after ->
         (forall e', e' ∈ after -> name_of (entry_pJson e') <> name_of (entry_pJson e)) ->
         deps !! name_of (entry_pJson e)
         = Some (packageUrlOf env username publishingVersion (entry_pJson e)).
Proof.
  destruct (scan_from username publishingVersion paths (∅, []) s)
    as (new & s' & Hrun & Hsub).
  eexists _, _, _. split; [exact Hrun|]. simpl. split; [done|].
  intros before e after -> Hafter.
  rewrite foldl_app. simpl.
  rewrite (foldl_set_lookup_other (fun e => name_of (entry_pJson e))
             (fun e => packageUrlOf env username publishingVersion (entry_pJson e)))
    by done.
  apply lookup_insert_eq.
Qed.

(** ** The passes in sequence *)

(** An error thrown by PASS 3 leaves [publish_packages] at once, in the
    state PASS 3 stopped in: PASS 4 is not run. *)
Lemma publish_packages_pack_throw credentials input paths ver
    (s s1 s2 s3 s4 : State World) username scanned mutated e :
  getUsername env s = (Ok username, s1) ->
  scan env username ver paths s1 = (Ok scanned, s2) ->
  scanned.2 <> [] ->
  mutate env scanned.1 scanned.2 s2 = (Ok mutated, s3) ->
  pack_all env (packer input) mutated.2 s3 = (Throw e, s4) ->
  publish_packages env credentials input paths ver s = (Throw e, s4).
Proof.
  intros Hu Hscan Hne Hmut Hpack. unfold publish_packages.
  rewrite (bind_ok _ _ _ _ _ Hu), (bind_ok _ _ _ _ _ Hscan). cbv zeta.
  destruct (scanned.2) as [|e0 l] eqn:Hl; [done|]. cbn [length Nat.eqb].
  rewrite (bind_ok _ _ _ _ _ Hmut). cbv zeta.
  by rewrite (bind_throw _ _ _ _ _ Hpack).
Qed.

End CliFacts.

(** * The example runs *)
Section CliRuns.
Import Cli CliExamples.

Lemma writeDeps_rewrites_three_classes_witness :
  deps !! "b" = Some url_b
  /\ (exists new, dependencies (hijacked deps pkg_a) = Some new /\ new !! "b" = Some url_b)
  /\ (exists new, devDependencies (hijacked deps pkg_c) = Some new /\ new !! "b" = Some url_b)
  /\ peerDependencies (hijacked deps pkg_a) = Some {[ "b" := "workspace:*" ]}.
Proof.
  assert (Hb : deps !! "b" = Some url_b) by reflexivity.
  split; [exact Hb|]. split; [|split].
  - apply (proj1 (writeDeps_rewrites_three_classes (env all_well) deps pkg_a "b" url_b Hb)
             {[ "b" := "workspace:*" ]}); [reflexivity|by eexists].
  - apply (proj1 (proj2 (writeDeps_rewrites_three_classes (env all_well) deps pkg_c
                           "b" url_b Hb))
             {[ "b" := "workspace:*" ]}); [reflexivity|by eexists].
  - apply (proj1 (proj2 (proj2 (proj2 (writeDeps_rewrites_three_classes (env all_well)
                                         deps pkg_a "b" url_b Hb))))).
Defined.



Lemma publish_version_from_revision_witness :
  Js.truthy (input_version all_packages) = false
  /\ getCredentials (env no_git) start = (Ok (Some alice), after_credentials)
  /\ (publish (env no_git) all_packages start).1 = Ok VersionDetectionFailed
  /\ publish (env all_well) all_packages start
     = publish_packages (env all_well) alice all_packages
         ["/ws/packages/a"; "/ws/packages/b"; "/ws/packages/c"] "4f2a9c1"
         {| disk := workspace; world := tt;
            trace := [EvReadFile credentials_file; EvExec "git" ["rev-parse"; "HEAD"] None] |}.
Proof.
  assert (Hnone : Js.truthy (input_version all_packages) = false) by reflexivity.
  assert (Hcred : forall sc, getCredentials (env sc) start = (Ok (Some alice), after_credentials))
    by reflexivity.
  split; [exact Hnone|]. split; [exact (Hcred no_git)|]. split.
  - rewrite (proj2 (publish_version_from_revision (env no_git) all_packages start
                      after_credentials alice _ _ _ Hnone (Hcred no_git) eq_refl));
      [reflexivity|discriminate].
  - rewrite (proj1 (publish_version_from_revision (env all_well) all_packages start
                      after_credentials alice _ _ _ Hnone (Hcred all_well) eq_refl));
      reflexivity.
Defined.

Lemma scan_last_discovered_wins_witness :
  exists deps' s',
    scan (env all_well) "alice" "4f2a9c1"
      ["/ws/packages/a"; "/ws/packages/b"; "/ws/packages/a"] start
    = (Ok (deps',
           [{| entry_path := "/ws/packages/a"; entry_pJson := pkg_a |};
            {| entry_path := "/ws/packages/b"; entry_pJson := pkg_b |};
            {| entry_path := "/ws/packages/a"; entry_pJson := pkg_a |}]), s')
    /\ deps' !! "a" = Some "https://pkg.rx2.dev/alice/a@4f2a9c1".
Proof.
  destruct (scan_last_discovered_wins (env all_well) "alice" "4f2a9c1"
              ["/ws/packages/a"; "/ws/packages/b"; "/ws/packages/a"] start)
    as (deps' & infos & s' & Hscan & _ & Hlast).
  assert (Hinfos : infos = [{| entry_path := "/ws/packages/a"; entry_pJson := pkg_a |};
                            {| entry_path := "/ws/packages/b"; entry_pJson := pkg_b |};
                            {| entry_path := "/ws/packages/a"; entry_pJson := pkg_a |}]).
  { vm_compute in Hscan. by injection Hscan as _ <- _. }
  exists deps', s'. split; [by rewrite Hscan, Hinfos|].
  apply (Hlast [{| entry_path := "/ws/packages/a"; entry_pJson := pkg_a |};
                {| entry_path := "/ws/packages/b"; entry_pJson := pkg_b |}]
               {| entry_path := "/ws/packages/a"; entry_pJson := pkg_a |} []);
    [exact Hinfos|].
  intros e' He'. by apply elem_of_nil in He'.
Defined.

(** C4 at a tool that exits with 0 and writes no archive: what leaves
    [pack] is the ENOENT of [stat], not the internal error that the code
    has for this case. *)
Theorem pack_missing_output_throws_stat_error :
  exitCode (x (env b_silent) "npm" (packArgs pack_b) (Some "/ws/packages/b")
              workspace tt).1.1 = Some 0%Z
  /\ workspace !! "/ws/packages/b/b-1.0.0.tgz" = None
  /\ (pack (env b_silent) pack_b start).1
     = Throw (SystemError "ENOENT" "stat" "/ws/packages/b/b-1.0.0.tgz")
  /\ (pack (env b_silent) pack_b start).1 <> Throw (Error pack_invariant_violation).
Proof. vm_compute. repeat split. discriminate. Qed.

(** C1 at a run over three packages in which the packing tool exits
    with 1 for the second: the error leaves [publish] from PASS 3, PASS 4
    does not run, and the three manifests stay rewritten on disk. *)
Theorem publish_pack_failure_skips_restore :
  (publish (env b_fails) all_packages start).1
  = Throw (Error "Failed to pack /ws/packages/b with npm")
  /\ disk (publish (env b_fails) all_packages start).2 !! "/ws/packages/a/package.json"
     = Some (File rewritten_a)
  /\ disk (publish (env b_fails) all_packages start).2 !! "/ws/packages/b/package.json"
     = Some (File rewritten_b)
  /\ disk (publish (env b_fails) all_packages start).2 !! "/ws/packages/c/package.json"
     = Some (File rewritten_c)
  /\ List.filter is_write (trace (publish (env b_fails) all_packages start).2)
     = [EvWriteFile "/ws/packages/a/package.json" rewritten_a;
        EvWriteFile "/ws/packages/b/package.json" rewritten_b;
        EvWriteFile "/ws/packages/c/package.json" rewritten_c]
  /\ List.filter is_fetch (trace (publish (env b_fails) all_packages start).2) = []
  /\ rewritten_a <> manifest_a /\ rewritten_b <> manifest_b /\ rewritten_c <> manifest_c.
Proof. vm_compute. repeat split; discriminate. Qed.

(** When every pack succeeds, the three restores come after the three
    rewrites and before the first upload, and the disk ends as it began. *)
Example publish_all_well_restores_before_upload :
  disk (publish (env all_well) all_packages start).2 = workspace
  /\ List.filter (fun e => is_write e || is_fetch e)
       (trace (publish (env all_well) all_packages start).2)
     = [EvWriteFile "/ws/packages/a/package.json" rewritten_a;
        EvWriteFile "/ws/packages/b/package.json" rewritten_b;
        EvWriteFile "/ws/packages/c/package.json" rewritten_c;
        EvWriteFile "/ws/packages/a/package.json" manifest_a;
        EvWriteFile "/ws/packages/b/package.json" manifest_b;
        EvWriteFile "/ws/packages/c/package.json" manifest_c;
        EvFetch "https://pkg.rx2.dev/alice/a@4f2a9c1"
          {| form_filename := "/ws/packages/a/a-1.0.0.tgz";
             form_tarball := archive rewritten_a;
             form_sha256 := digest (archive rewritten_a) |} "Bearer alice-token";
        EvFetch "https://pkg.rx2.dev/alice/b@4f2a9c1"
          {| form_filename := "/ws/packages/b/b-1.0.0.tgz";
             form_tarball := archive rewritten_b;
             form_sha256 := digest (archive rewritten_b) |} "Bearer alice-token";
        EvFetch "https://pkg.rx2.dev/alice/c@4f2a9c1"
          {| form_filename := "/ws/packages/c/c-2.0.0.tgz";
             form_tarball := archive rewritten_c;
             form_sha256 := digest (archive rewritten_c) |} "Bearer alice-token"].
Proof. split; vm_compute; reflexivity. Qed.

End CliRuns.

(** * More on the worker *)
Section ServerMore.
Import Server.

Lemma lower_class_not_slash a : lower_class a = true -> a <> "/"%char.
Proof. intros H ->. vm_compute in H. discriminate. Qed.

Lemma lower_class_not_underscore a : lower_class a = true -> a <> "_"%char.
Proof. intros H ->. vm_compute in H. discriminate. Qed.

Lemma coordinate_field_chars s :
  coordinate_field s = true -> Js.all_chars lower_class s = true.
Proof.
  unfold coordinate_field, LowercaseAlphaNumericWithDashRegex, Js.matches_plus.
  intros [_ H]%andb_true_iff. by destruct s.
Qed.

(** [split] leaves a prefix free of the separator in the first piece. *)
Lemma split_app (P : ascii -> bool) (c : ascii) :
  (forall a, P a = true -> a <> c) ->
  forall s1 s2, Js.all_chars P s1 = true ->
    Js.split c (s1 +:+ s2) = ((s1 +:+ (Js.split c s2).1), (Js.split c s2).2).
Proof.
  intros HP. induction s1 as [|a s1 IH]; intros s2 H1.
  - change ("" +:+ s2) with s2. by destruct (Js.split c s2).
  - cbn in H1. apply andb_true_iff in H1 as [Ha H1].
    change (String a s1 +:+ s2) with (String a (s1 +:+ s2)).
    change (String a s1 +:+ (Js.split c s2).1) with (String a (s1 +:+ (Js.split c s2).1)).
    cbn [Js.split]. rewrite (IH s2 H1).
    by rewrite bool_decide_eq_false_2 by (by apply HP).
Qed.

Lemma split_none (P : ascii -> bool) (c : ascii) s :
  (forall a, P a = true -> a <> c) -> Js.all_chars P s = true -> Js.split c s = (s, []).
Proof.
  intros HP Hs. transitivity (Js.split c (s +:+ "")); [by rewrite string_app_nil_r|].
  rewrite (split_app P c HP s "" Hs). change (Js.split c "") with ("", @nil string).
  cbn [fst snd]. by rewrite string_app_nil_r.
Qed.

Lemma split_sep (c : ascii) (s : string) :
  Js.split c (String c s) = ("", (Js.split c s).1 :: (Js.split c s).2).
Proof. cbn. destruct (Js.split c s). by rewrite bool_decide_eq_true_2. Qed.


Lemma split_at (P : ascii -> bool) (c : ascii) s1 s2 :
  (forall a, P a = true -> a <> c) -> Js.all_chars P s1 = true ->
  Js.split c (s1 +:+ String c s2) = (s1, (Js.split c s2).1 :: (Js.split c s2).2).
Proof.
  intros HP H1. rewrite (split_app P c HP s1 _ H1), split_sep. cbn [fst snd].
  by rewrite string_app_nil_r.
Qed.

Lemma split_other (c a : ascii) s :
  a <> c -> Js.split c (String a s) = (String a (Js.split c s).1, (Js.split c s).2).
Proof.
  intros Hne. cbn [Js.split]. destruct (Js.split c s).
  by rewrite bool_decide_eq_false_2.
Qed.

(** What may follow the version in a package segment: nothing, or an [@]
    and anything. *)
Lemma tail_first_piece rest :
  rest = "" \/ (exists junk, rest = String "@" junk) -> (Js.split "@" rest).1 = "".
Proof. intros [->|[junk ->]]; [done|]. by rewrite split_sep. Qed.

Lemma tail_before_slash rest :
  rest = "" \/ (exists junk, rest = String "@" junk) ->
  (Js.split "/" rest).1 = "" \/ exists junk, (Js.split "/" rest).1 = String "@" junk.
Proof.
  intros [->|[junk ->]]; [by left|]. right.
  rewrite split_other by done. by eexists.
Qed.

Lemma version_first_piece v rest :
  coordinate_field v = true ->
  rest = "" \/ (exists junk, rest = String "@" junk) ->
  (Js.split "@" (v +:+ rest)).1 = v.
Proof.
  intros Hv%coordinate_field_chars Hrest.
  rewrite (split_app lower_class "@" lower_class_not_at v rest Hv). cbn [fst].
  by rewrite tail_first_piece, string_app_nil_r.
Qed.

Lemma transform_unscoped n v rest :
  coordinate_field n = true -> coordinate_field v = true ->
  rest = "" \/ (exists junk, rest = String "@" junk) ->
  transform (n +:+ String "@" (v +:+ rest))
  = Some {| raw_org := None; raw_packageName := n; raw_version := Some v |}.
Proof.
  intros Hn Hv Hrest. unfold transform.
  destruct (coordinate_field_head n Hn) as (a & n' & -> & Ha).
  change (String a n' +:+ ?s) with (String a (n' +:+ s)). cbn [Js.startsWith].
  rewrite bool_decide_eq_false_2 by (by apply lower_class_not_at).
  change (String a (n' +:+ ?s)) with (String a n' +:+ s).
  rewrite (split_at lower_class "@" _ _ lower_class_not_at (coordinate_field_chars _ Hn)).
  by rewrite version_first_piece.
Qed.

Lemma transform_scoped o n v rest :
  coordinate_field o = true -> coordinate_field n = true -> coordinate_field v = true ->
  rest = "" \/ (exists junk, rest = String "@" junk) ->
  transform (String "@" (o +:+ String "/" (n +:+ String "@" (v +:+ rest))))
  = Some {| raw_org := Some o; raw_packageName := n; raw_version := Some v |}.
Proof.
  intros Ho Hn Hv Hrest. unfold transform. cbn [Js.startsWith].
  rewrite bool_decide_eq_true_2 by done.
  rewrite split_other by done.
  rewrite (split_at lower_class "/" _ _ lower_class_not_slash (coordinate_field_chars _ Ho)).
  cbn [fst snd Js.slice1].
  rewrite (split_app lower_class "/" lower_class_not_slash n _ (coordinate_field_chars _ Hn)).
  cbn [fst snd]. rewrite split_other by done. cbn [fst snd].
  rewrite (split_app lower_class "/" lower_class_not_slash v _ (coordinate_field_chars _ Hv)).
  cbn [fst snd].
  rewrite (split_at lower_class "@" _ _ lower_class_not_at (coordinate_field_chars _ Hn)).
  by rewrite (version_first_piece v _ Hv (tail_before_slash rest Hrest)).
Qed.

Lemma validatePackageParams_tail username info rest :
  GithubUsername username = true -> valid_coordinate info = true ->
  rest = "" \/ (exists junk, rest = String "@" junk) ->
  validatePackageParams username (display_name info +:+ rest) = ParamsValid username info.
Proof.
  intros Hu Hvalid Hrest. pose proof Hvalid as Hc. unfold valid_coordinate in Hc.
  apply andb_true_iff in Hc as [[Ho Hn]%andb_true_iff Hv].
  unfold validatePackageParams, display_name.
  destruct info as [[o|] n v]; cbn [org packageName version] in *.
  - rewrite (coordinate_field_truthy o Ho). cbn [default].
    rewrite !string_app_assoc, !cons_app. change (id o) with o.
    rewrite (transform_scoped o n v rest Ho Hn Hv Hrest).
    unfold checkPackageInfo. cbn [raw_org raw_packageName raw_version].
    by rewrite Ho, Hn, Hv, Hu.
  - cbn [Js.truthy]. change ("" +:+ ?s) with s. rewrite !string_app_assoc, !cons_app.
    rewrite (transform_unscoped n v rest Hn Hv Hrest).
    unfold checkPackageInfo. cbn [raw_org raw_packageName raw_version].
    by rewrite Hn, Hv, Hu.
Qed.

(** X1. Parsing undoes printing: the package segment printed for a valid
    coordinate ([name@version], or [@org/name@version]) is parsed back to
    that coordinate. *)
Theorem validatePackageParams_display_name username info :
  GithubUsername username = true -> valid_coordinate info = true ->
  validatePackageParams username (display_name info) = ParamsValid username info.
Proof.
  intros Hu Hvalid. rewrite <- (string_app_nil_r (display_name info)).
  apply validatePackageParams_tail; auto.
Qed.

(** X2. Whatever follows a second [@] in the package segment is ignored:
    [name@version@junk] addresses the same coordinate as [name@version]. *)
Theorem validatePackageParams_ignores_junk username info junk :
  GithubUsername username = true -> valid_coordinate info = true ->
  validatePackageParams username (display_name info +:+ "@" +:+ junk)
  = ParamsValid username info.
Proof.
  intros Hu Hvalid. apply validatePackageParams_tail; eauto.
Qed.






(** A package segment with a line terminator reaches no handler: the
    router answers. An escaped [/] is decoded after the match. *)
Example app_get_routes (b : Bucket) :
  app_get ("/alice/left-pad@abc" +:+ Js.LF) b = (NotFound, [])
  /\ app_get ("/alice/@scope" +:+ Js.LF) b = (NotFound, [])
  /\ (get_route "alice" ("@scope" +:+ Js.LF) b).1 = Uncaught
  /\ app_get "/alice/@scope" b = (Routed Uncaught, [])
  /\ app_get "/alice/%40scope" b = (Routed Uncaught, [])
  /\ app_get "/alice/@scope%2Fname" b = (Routed (Json 400 InvalidPackageFormat), [])
  /\ app_get "/alice/@a%2fb@1" ∅
     = (Routed (Json 404 PackageNotFound), [EvHead "preview-pkg/alice/@a__b@1"])
  /\ app_get "/alice%2Fleft-pad@1" b = (NotFound, [])
  /\ app_get "/" b = (Redirect "https://github.com/BlankParticle/preview-pkg", [])
  /\ app_get "/alice" b = (NotFound, []).
Proof. repeat split; vm_compute; try reflexivity. Qed.

Lemma validatePackageParams_valid username package u info :
  validatePackageParams username package = ParamsValid u info ->
  u = username /\ GithubUsername u = true /\ valid_coordinate info = true.
Proof.
  unfold validatePackageParams, checkPackageInfo, valid_coordinate.
  repeat case_match; intros; simplify_eq/=; repeat split; done.
Qed.

Lemma spec_key_inj id1 id2 c1 c2 :
  GithubUsername id1 = true -> GithubUsername id2 = true ->
  valid_coordinate c1 = true -> valid_coordinate c2 = true ->
  spec_key id1 c1 = spec_key id2 c2 -> id1 = id2 /\ c1 = c2.
Proof.
  intros H1 H2 Hc1 Hc2 E.
  destruct (org c1) as [o1|] eqn:Ho1, (org c2) as [o2|] eqn:Ho2.
  - pose proof Hc1 as Hv1. pose proof Hc2 as Hv2. unfold valid_coordinate in Hv1, Hv2.
    rewrite Ho1 in Hv1. rewrite Ho2 in Hv2.
    apply andb_true_iff in Hv1 as [[Hf1 Hn1]%andb_true_iff Hr1].
    apply andb_true_iff in Hv2 as [[Hf2 Hn2]%andb_true_iff Hr2].
    unfold spec_key, spec_keyname in E. rewrite Ho1, Ho2 in E.
    apply (inj (String.app _)) in E. rewrite !string_app_assoc, !cons_app in E.
    apply (app_sep_inj mixed_class "/" mixed_class_not_slash) in E as [-> E];
      try by apply GithubUsername_chars.
    injection E as E. change (String "_" (String "_" ?s)) with ("__" +:+ s) in E.
    change ("__" +:+ ?s) with (String "_" (String "_" s)) in E.
    apply (app_sep_inj lower_class "_" lower_class_not_underscore) in E as [-> E];
      try by apply coordinate_field_chars.
    injection E as E.
    apply (app_sep_inj lower_class "@" lower_class_not_at) in E as [En Ev];
      try by apply coordinate_field_chars.
    split; [done|]. destruct c1, c2. by simplify_eq/=.
  - exfalso. unfold valid_coordinate in Hc2.
    apply andb_true_iff in Hc2 as [[_ Hn2]%andb_true_iff _].
    apply (spec_key_disjoint id1 id2 c1 c2); try done; by rewrite Ho1.
  - exfalso. unfold valid_coordinate in Hc1.
    apply andb_true_iff in Hc1 as [[_ Hn1]%andb_true_iff _].
    apply (spec_key_disjoint id2 id1 c2 c1); try done; by rewrite Ho2.
  - pose proof Hc1 as Hv1. pose proof Hc2 as Hv2. unfold valid_coordinate in Hv1, Hv2.
    rewrite Ho1 in Hv1. rewrite Ho2 in Hv2.
    apply andb_true_iff in Hv1 as [Hn1 Hr1]. apply andb_true_iff in Hv2 as [Hn2 Hr2].
    unfold spec_key, spec_keyname in E. rewrite Ho1, Ho2 in E.
    apply (inj (String.app _)) in E. rewrite !cons_app in E.
    apply (app_sep_inj mixed_class "/" mixed_class_not_slash) in E as [-> E];
      try by apply GithubUsername_chars.
    apply (app_sep_inj lower_class "@" lower_class_not_at) in E as [En Ev];
      try by apply coordinate_field_chars.
    split; [done|]. destruct c1, c2. by simplify_eq/=.
Qed.

(** X4. The storage key is collision-free on validated requests: two
    identities and coordinates that pass the schemas and get the same key
    are the same identity and the same coordinate. *)
Theorem key_of_inj id1 id2 c1 c2 :
  GithubUsername id1 = true -> GithubUsername id2 = true ->
  valid_coordinate c1 = true -> valid_coordinate c2 = true ->
  key_of id1 c1 = key_of id2 c2 -> id1 = id2 /\ c1 = c2.
Proof.
  intros H1 H2 Hc1 Hc2. rewrite !key_of_format by done. by apply spec_key_inj.
Qed.

(** X5. The bucket changes only on a 201, and only for a request whose
    [Authorization] header GitHub resolves to the very username of the
    path: nobody writes under another identity, and no failed request
    leaves a trace in the bucket. *)
Theorem post_route_writes_need_identity env req (b : Bucket) :
  (post_route env req b).1.2 <> b ->
  (post_route env req b).1.1 = Json 201 PackageCreated
  /\ exists authorization,
      header_authorization req = Some authorization
      /\ getAuthenticated env authorization = Some (param_username req).
Proof.
  unfold post_route, post_handler.
  destruct (validatePackageParams _ _) as [| |u info] eqn:Hp; try done.
  apply validatePackageParams_valid in Hp as (-> & _ & _).
  repeat case_match; simpl; try done; intros _; (split; [done|]);
    eexists; (split; [done|]);
    match goal with
    | H : negb (bool_decide _) = false |- _ =>
        apply negb_false_iff, bool_decide_eq_true_1 in H; by subst
    end.
Qed.

Lemma post_route_writes_need_identity_witness :
  (post_route ServerExamples.env
     (ServerExamples.upload "left-pad@abc1234" ServerExamples.gz_sha256) ∅).1.2 <> ∅
  /\ (post_route ServerExamples.env
       (ServerExamples.upload "left-pad@abc1234" ServerExamples.gz_sha256) ∅).1.1
     = Json 201 PackageCreated.
Proof.
  assert (Hne : (post_route ServerExamples.env
                   (ServerExamples.upload "left-pad@abc1234" ServerExamples.gz_sha256)
                   ∅).1.2 <> ∅).
  { intros E. apply (f_equal (fun m : Bucket => m !! ServerExamples.left_pad_key)) in E.
    vm_compute in E. discriminate. }
  split; [exact Hne|].
  exact (proj1 (post_route_writes_need_identity _ _ _ Hne)).
Defined.

(** X6. What was uploaded is what is fetched: after a 201, a fetch with
    the same path parameters returns the bytes of the uploaded file. *)
Theorem upload_then_fetch env req (b b' : Bucket) events :
  post_route env req b = (Json 201 PackageCreated, b', events) ->
  exists filename bytes,
    form_tarball req = Some (FFile filename bytes)
    /\ (get_route (param_username req) (param_package req) b').1
       = Tarball 200 "application/tar+gzip" bytes.
Proof.
  unfold post_route, post_handler, get_route, STORAGE_head, STORAGE_get.
  destruct (validatePackageParams _ _) as [| |u info] eqn:Hp; try done.
  destruct (form_tarball req) as [[?|filename bytes]|] eqn:Hf; try done.
  cbn [tarball_schema]. destruct (File_size bytes >? maxTarballSize)%Z; [done|].
  repeat case_match; intros; simplify_map_eq/=; by eexists _, _.
Qed.

Lemma upload_then_fetch_witness :
  exists b' events,
    post_route ServerExamples.env
      (ServerExamples.upload "left-pad@abc1234" ServerExamples.gz_sha256) ∅
    = (Json 201 PackageCreated, b', events)
    /\ (get_route "alice" "left-pad@abc1234" b').1
       = Tarball 200 "application/tar+gzip" ServerExamples.gz.
Proof.
  assert (exists b' events,
             post_route ServerExamples.env
               (ServerExamples.upload "left-pad@abc1234" ServerExamples.gz_sha256) ∅
             = (Json 201 PackageCreated, b', events)) as (b' & events & E)
    by (eexists _, _; reflexivity).
  exists b', events. split; [exact E|].
  destruct (upload_then_fetch _ _ _ _ _ E) as (filename & bytes & Hf & Hget).
  injection Hf as _ <-. exact Hget.
Defined.

(** X7. An upload leaves every other key alone: whatever the outcome, the
    bucket is unchanged at every key but the one of the request. *)
Theorem post_route_frame env req (b : Bucket) k :
  (forall u info,
      validatePackageParams (param_username req) (param_package req) = ParamsValid u info ->
      k <> key_of u info) ->
  (post_route env req b).1.2 !! k = b !! k.
Proof.
  intros Hk. unfold post_route, post_handler.
  destruct (validatePackageParams _ _) as [| |u info] eqn:Hp; try done.
  specialize (Hk u info eq_refl).
  repeat case_match; simpl; try done; by rewrite lookup_insert_ne.
Qed.

Lemma post_route_frame_witness :
  let b : Bucket := {[ "preview-pkg/alice/right-pad@abc1234" := ServerExamples.unrecorded ]} in
  (post_route ServerExamples.env
     (ServerExamples.upload "left-pad@abc1234" ServerExamples.gz_sha256) b).1.2
    !! "preview-pkg/alice/right-pad@abc1234"
  = Some ServerExamples.unrecorded.
Proof.
  intros b. rewrite post_route_frame; [reflexivity|].
  intros u info Hp. vm_compute in Hp. injection Hp as <- <-. vm_compute. discriminate.
Defined.

End ServerMore.

(** * More on the command line *)
Section CliMore.
Import Cli.
Context {World : Type} (env : Env World).

(** ** Credentials *)

(** X8. A credentials file that holds something is decoded and parsed;
    when the text does not parse the file is deleted and the credentials
    count as absent, without an error. A file that parses is left
    alone. *)
Theorem getCredentials_parses_or_removes (s : State World) contents :
  disk s !! credentialPath env = Some (File contents) ->
  contents <> "" ->
  exists s',
    getCredentials env s = (Ok (parseCredentials env (Js.utf8_decode contents)), s')
    /\ disk s' = match parseCredentials env (Js.utf8_decode contents) with
                 | Some _ => disk s
                 | None => delete (credentialPath env) (disk s)
                 end.
Proof.
  intros Hfile Hne. unfold getCredentials, catch_null, mbind, M_bind, bind.
  rewrite (readFile_utf8_file _ _ _ Hfile).
  pose proof (utf8_decode_nonempty contents Hne) as Hdec.
  destruct (Js.utf8_decode contents) as [|a decoded]; [done|].
  cbn [Js.truthy negb default]. unfold id.
  destruct (parseCredentials env (String a decoded)); [by eexists|].
  unfold log, emit, unlink, get_disk, set_disk, mbind, M_bind, bind, mret, M_ret, ret.
  cbn. rewrite Hfile. by eexists.
Qed.

(** ** Version *)

(** X9. A non-empty [--version] is used as it is: [git] is not run, and
    the rest of the run starts in the state the credentials were read in. *)
Theorem publish_explicit_version input (s s0 : State World) credentials v :
  input_version input = Some v -> v <> "" ->
  getCredentials env s = (Ok (Some credentials), s0) ->
  publish env input s
  = publish_packages env credentials input (expand_paths env input) v s0.
Proof.
  intros Hv Hne Hcred. unfold publish. rewrite (bind_ok _ _ _ _ _ Hcred). cbv zeta.
  unfold resolveVersion. rewrite Hv. destruct v as [|a v]; [done|].
  cbn [Js.truthy negb]. reflexivity.
Qed.

(** ** Packing *)

(** X10. When the tool exits with 0 and its archive is in place, [pack]
    returns the bytes of the archive, their digest and their length, and
    removes the archive from the disk unless [keepFile] is set. *)
Theorem pack_returns_archive options (s : State World) res d w contents :
  x env (pm_name (packageManager options)) (packArgs options) (Some (cwd options))
    (disk s) (world s) = (res, d, w) ->
  exitCode res = Some 0%Z ->
  d !! join (cwd options) (packageIdentifier options +:+ ".tgz") = Some (File contents) ->
  exists s',
    pack env options s
    = (Ok {| filename := join (cwd options) (packageIdentifier options +:+ ".tgz");
             file := contents;
             sha256 := sha256_hex env contents;
             size := Z.of_nat (String.length contents);
             output := Js.trim (stdout res +:+ stderr res) |}, s')
    /\ disk s' = if keepFile options then d
                 else delete (join (cwd options) (packageIdentifier options +:+ ".tgz")) d.
Proof.
  intros Hx Hexit Hfile. unfold pack.
  rewrite (bind_ok _ _ _ _ _ (call_x_run env _ _ _ _ _ _ _ Hx)).
  rewrite bool_decide_eq_true_2 by done. cbn [negb].
  unfold catch_null, readFile, stat, unlink, emit, get_disk, set_disk, throw,
    mbind, M_bind, bind, mret, M_ret, ret.
  cbn. rewrite Hfile. cbn. rewrite Hfile.
  destruct (keepFile options); cbn; [by eexists|]. rewrite Hfile. by eexists.
Qed.

Lemma replace1_app (c : ascii) (r s1 s2 : string) :
  Js.all_chars (fun a => negb (bool_decide (a = c))) s1 = true ->
  Js.replace1 c r (s1 +:+ String c s2) = s1 +:+ r +:+ s2.
Proof.
  induction s1 as [|a s1 IH]; intros H1.
  - change ("" +:+ ?t) with t. cbn [Js.replace1]. by rewrite bool_decide_eq_true_2.
  - cbn in H1. apply andb_true_iff in H1 as [Ha H1].
    apply negb_true_iff, bool_decide_eq_false_1 in Ha.
    change (String a s1 +:+ ?t) with (String a (s1 +:+ t)). cbn [Js.replace1].
    rewrite bool_decide_eq_false_2 by done. by rewrite IH.
Qed.

Lemma replace1_none (c : ascii) (r s : string) :
  Js.all_chars (fun a => negb (bool_decide (a = c))) s = true -> Js.replace1 c r s = s.
Proof.
  induction s as [|a s IH]; intros H1; [done|].
  cbn in H1. apply andb_true_iff in H1 as [Ha H1].
  apply negb_true_iff, bool_decide_eq_false_1 in Ha.
  cbn [Js.replace1]. rewrite bool_decide_eq_false_2 by done. by rewrite IH.
Qed.

(** X11. The archive name [pack] looks for: for a package [@scope/name]
    it is [scope-name-version], for a name without [@] and [/] it is
    [name-version]. *)
Theorem identifier_of_names pJson scope n v :
  version pJson = Some v ->
  (name pJson = Some ("@" +:+ scope +:+ "/" +:+ n) ->
   Js.all_chars (fun a => negb (bool_decide (a = "/"%char))) scope = true ->
   identifier_of pJson = scope +:+ "-" +:+ n +:+ "-" +:+ v)
  /\ (name pJson = Some n ->
      Js.all_chars (fun a => negb (bool_decide (a = "@"%char))) n = true ->
      Js.all_chars (fun a => negb (bool_decide (a = "/"%char))) n = true ->
      identifier_of pJson = n +:+ "-" +:+ v).
Proof.
  intros Hv. unfold identifier_of, name_of. rewrite Hv. split.
  - intros Hn Hscope. rewrite Hn. cbn [default]. unfold id.
    rewrite cons_app. cbn [Js.replace1]. rewrite bool_decide_eq_true_2 by done.
    change ("" +:+ ?t) with t. rewrite cons_app.
    rewrite (replace1_app "/" "-" scope n Hscope). by rewrite !string_app_assoc.
  - intros Hn Hat Hslash. rewrite Hn. cbn [default]. unfold id.
    by rewrite (replace1_none "@" "" n Hat), (replace1_none "/" "-" n Hslash).
Qed.

(** ** Rewriting, entry by entry *)

(** X12. For a name that [Object.prototype] does not define, the rewrite
    is exact: an entry that exists and is a key of the map gets the URL,
    every other entry keeps its value, and no entry is added. *)
Theorem hijackDeps_exact (deps old : Dict) k :
  k ∉ Object_prototype ->
  exists new,
    hijackDeps deps (Some old) = Some new
    /\ new !! k = match deps !! k, old !! k with
                  | Some url, Some _ => Some url
                  | _, o => o
                  end.
Proof.
  intros Hk. eexists. split; [reflexivity|].
  rewrite hijackDeps_lookup. destruct (deps !! k) as [url|]; [|done].
  unfold hijack_step, js_in, js_set.
  rewrite (bool_decide_eq_false_2 (k ∈ Object_prototype)) by done.
  rewrite orb_false_r. destruct (old !! k) as [v|] eqn:Hold.
  - rewrite bool_decide_eq_true_2 by eauto.
    rewrite (bool_decide_eq_false_2 (Some v = None)) by done.
    rewrite andb_false_r. apply lookup_insert_eq.
  - rewrite bool_decide_eq_false_2 by (by intros [? ?]). done.
Qed.

(** X13. A key of the map that names a property of [Object.prototype]
    other than [__proto__] (such as [constructor] or [toString]) passes the
    [in] test in every dependency object: it is written into an object
    that had no such entry. *)
Theorem hijackDeps_inherited_name (deps old : Dict) k url :
  k ∈ Object_prototype -> k <> "__proto__" ->
  deps !! k = Some url ->
  exists new, hijackDeps deps (Some old) = Some new /\ new !! k = Some url.
Proof.
  intros Hk Hne Hdep. eexists. split; [reflexivity|].
  rewrite hijackDeps_lookup, Hdep. unfold hijack_step, js_in, js_set.
  rewrite (bool_decide_eq_true_2 (k ∈ Object_prototype)) by done.
  rewrite orb_true_r. rewrite (bool_decide_eq_false_2 (k = "__proto__")) by done.
  apply lookup_insert_eq.
Qed.

Lemma hijack_step_twice k url (o1 o2 : Dict) :
  o2 !! k = hijack_step k url o1 !! k ->
  hijack_step k url o2 !! k = hijack_step k url o1 !! k.
Proof.
  unfold hijack_step, js_in, js_set. intros E.
  destruct (bool_decide (k ∈ Object_prototype)) eqn:Hp;
    destruct (bool_decide (k = "__proto__")) eqn:Hq;
    destruct (o1 !! k) as [v1|] eqn:H1;
    repeat (rewrite ?bool_decide_eq_true_2 in * by eauto;
            rewrite ?bool_decide_eq_false_2 in * by (by intros [? ?] || done);
            cbn in *; rewrite ?H1, ?lookup_insert_eq in *);
    destruct (o2 !! k) as [v2|] eqn:H2; simplify_eq/=;
    repeat (rewrite ?bool_decide_eq_true_2 by eauto;
            rewrite ?bool_decide_eq_false_2 by (by intros [? ?] || done);
            cbn; rewrite ?H2, ?lookup_insert_eq); done.
Qed.

(** X14. Rewriting is idempotent: a manifest that was rewritten with a
    map is left as it is by a second rewrite with the same map. *)
Theorem hijacked_idempotent (deps : Dict) (pJson : PackageJson) :
  hijacked deps (hijacked deps pJson) = hijacked deps pJson.
Proof.
  assert (Hd : forall o, hijackDeps deps (hijackDeps deps o) = hijackDeps deps o).
  { intros [old|]; [|done]. cbn. f_equal. apply map_eq. intros k.
    rewrite !hijackDeps_lookup. destruct (deps !! k) as [url|] eqn:Hk; [|done].
    apply hijack_step_twice. by rewrite hijackDeps_lookup, Hk. }
  unfold hijacked. cbn. by rewrite !Hd.
Qed.

(** ** PASS 1, in full *)

Lemma readPackageJson_spec path (s : State World) :
  readPackageJson env path s
  = (Ok match disk s !! path with
        | Some (File contents) => JSON_parse env (Js.utf8_decode contents)
        | _ => None
        end,
     {| disk := disk s; world := world s; trace := trace s ++ [EvReadFile path] |}).
Proof.
  unfold readPackageJson, try_catch, readFile_utf8, readFile, emit, get_disk, throw,
    mbind, M_bind, bind, mret, M_ret, ret. cbn.
  by destruct (disk s !! path) as [[contents|size]|].
Qed.


(** Paths without a manifest that parses: each is read and skipped with a
    warning, and nothing else happens. *)
Lemma scan_unparsed username ver paths :
  forall acc (s : State World),
    (forall p contents,
        p ∈ paths -> disk s !! join p "package.json" = Some (File contents) ->
        JSON_parse env (Js.utf8_decode contents) = None) ->
    for_of paths (scan_step env username ver) acc s
    = (Ok acc,
       {| disk := disk s; world := world s;
          trace := trace s
                   ++ flat_map (fun p => [EvReadFile (join p "package.json");
                                          EvLog Warn ("Skipping " +:+ p
                                                      +:+ ": package.json not found")])
                        paths |}).
Proof.
  induction paths as [|p paths IH]; intros acc s Hnone.
  - cbn. rewrite app_nil_r. by destruct s.
  - rewrite for_of_cons. unfold scan_step at 1.
    rewrite (bind_ok _ _ _ _ _ (readPackageJson_spec (join p "package.json") s)).
    assert (Hp : match disk s !! join p "package.json" with
                 | Some (File contents) => JSON_parse env (Js.utf8_decode contents)
                 | _ => None
                 end = None).
    { destruct (disk s !! join p "package.json") as [[contents|size]|] eqn:Hfile; try done.
      apply (Hnone p); [by left|done]. }
    rewrite Hp. unfold log, emit, mbind, M_bind, bind, mret, M_ret, ret. cbn [disk world trace].
    rewrite IH by (intros q contents Hq; apply Hnone; by right).
    cbn [disk world trace flat_map]. by rewrite <- !app_assoc.
Qed.




(** X16. When no path holds a manifest that parses (none at all, a
    directory, or a broken file), the run ends with "no packages". The
    disk and the outside world are as the login left them, and all that
    happened since is listed: each manifest was read and skipped with a
    warning, and the two closing messages were shown. Nothing is written,
    no tool is run and nothing is uploaded. *)
Theorem publish_packages_nothing_to_publish credentials input paths ver
    (s s1 : State World) username :
  getUsername env s = (Ok username, s1) ->
  (forall p contents,
      p ∈ paths -> disk s1 !! join p "package.json" = Some (File contents) ->
      JSON_parse env (Js.utf8_decode contents) = None) ->
  exists s',
    publish_packages env credentials input paths ver s = (Ok NoPackagesToPublish, s')
    /\ disk s' = disk s1
    /\ world s' = world s1
    /\ trace s'
       = trace s1
         ++ flat_map (fun p => [EvReadFile (join p "package.json");
                                EvLog Warn ("Skipping " +:+ p +:+ ": package.json not found")])
              paths
         ++ [EvLog Err "No valid packages found to publish";
             EvLog Outro "No packages to publish"]
    /\ Forall (fun ev => is_quiet ev = true) (drop (length (trace s1)) (trace s')).
Proof.
  intros Hu Hnone. unfold publish_packages. rewrite (bind_ok _ _ _ _ _ Hu).
  unfold scan. rewrite (bind_ok _ _ _ _ _ (scan_unparsed username ver paths _ s1 Hnone)).
  cbv zeta. cbn [fst snd length Nat.eqb].
  unfold log, emit, mbind, M_bind, bind, mret, M_ret, ret. cbn [disk world trace].
  eexists. split; [reflexivity|]. cbn [disk world trace].
  split; [done|]. split; [done|]. split; [by rewrite <- !app_assoc|].
  rewrite <- !app_assoc, drop_app_length. apply Forall_app. split.
  - apply Forall_flat_map, Forall_forall. intros p _. by repeat constructor.
  - by repeat constructor.
Qed.

(** ** PASS 2 and PASS 4 together *)

Lemma string_length_app (s1 s2 : string) :
  String.length (s1 +:+ s2) = String.length s1 + String.length s2.
Proof.
  induction s1 as [|a s1 IH]; [done|].
  change (String a s1 +:+ s2) with (String a (s1 +:+ s2)). cbn. by rewrite IH.
Qed.

Lemma string_app_inv_tail (s1 s2 t : string) : s1 +:+ t = s2 +:+ t -> s1 = s2.
Proof.
  revert s2. induction s1 as [|a s1 IH]; intros [|b s2] E; [done|..].
  - apply (f_equal String.length) in E. rewrite !string_length_app in E. cbn in E. lia.
  - apply (f_equal String.length) in E. rewrite !string_length_app in E. cbn in E. lia.
  - change (String a (s1 +:+ t) = String b (s2 +:+ t)) in E.
    injection E as -> E. by rewrite (IH s2 E).
Qed.

Lemma join_inj p q file : join p file = join q file -> p = q.
Proof. apply string_app_inv_tail. Qed.

Lemma map_set_fresh {V} (key : string) (v : V) (m : list (string * V)) :
  key ∉ m.*1 -> map_set key v m = m ++ [(key, v)].
Proof.
  induction m as [|[k w] m IH]; intros Hk; [done|]. cbn.
  rewrite bool_decide_eq_false_2 by (intros ->; apply Hk; by left).
  rewrite IH; [done|]. intros Hin. apply Hk. by right.
Qed.

Lemma mutate_step_file deps acc e (s : State World) contents :
  disk s !! join (entry_path e) "package.json" = Some (File contents) ->
  mutate_step env deps acc e s
  = (Ok (map_set (entry_path e)
           {| restore_path := join (entry_path e) "package.json";
              restore_contents := Js.utf8_decode contents |} acc.1,
         acc.2 ++ [{| entry_path := entry_path e;
                      entry_pJson := hijacked deps (entry_pJson e) |}]),
     {| disk := <[join (entry_path e) "package.json"
                  := File (JSON_stringify env (hijacked deps (entry_pJson e)))]> (disk s);
        world := world s;
        trace := (trace s ++ [EvReadFile (join (entry_path e) "package.json")])
                 ++ [EvWriteFile (join (entry_path e) "package.json")
                       (JSON_stringify env (hijacked deps (entry_pJson e)))] |}).
Proof.
  intros Hfile. unfold mutate_step.
  rewrite (bind_ok _ _ _ _ _ (readFile_utf8_file _ _ _ Hfile)).
  assert (Hd : forall size,
             disk {| disk := disk s; world := world s;
                     trace := trace s ++ [EvReadFile (join (entry_path e) "package.json")] |}
               !! join (entry_path e) "package.json" <> Some (Dir size))
    by (intros size; cbn; by rewrite Hfile).
  rewrite (bind_ok _ _ _ _ _
             (writeDeps_ok env _ (Js.utf8_decode contents) (entry_pJson e) deps _ Hd)).
  reflexivity.
Qed.

(** The restores PASS 2 collects for packages in distinct directories:
    one per package, in order, each holding the decoded text of what was
    on disk before. PASS 2 leaves files at the manifests' paths and
    touches no other path. *)
Lemma mutate_from deps l :
  forall rm infos0 (s : State World),
    NoDup (entry_path <$> l) ->
    (forall e, e ∈ l -> entry_path e ∉ rm.*1) ->
    (forall e, e ∈ l ->
       exists contents, disk s !! join (entry_path e) "package.json" = Some (File contents)) ->
    exists rs infos' s',
      for_of l (mutate_step env deps) (rm, infos0) s = (Ok (rm ++ rs, infos'), s')
      /\ Forall2 (fun e r =>
                    e ∈ l
                    /\ restore_path r.2 = join (entry_path e) "package.json"
                    /\ exists contents,
                         disk s !! join (entry_path e) "package.json" = Some (File contents)
                         /\ restore_contents r.2 = Js.utf8_decode contents) l rs
      /\ (forall k, (forall e, e ∈ l -> k <> join (entry_path e) "package.json") ->
            disk s' !! k = disk s !! k)
      /\ (forall e size, e ∈ l ->
            disk s' !! join (entry_path e) "package.json" <> Some (Dir size)).
Proof.
  induction l as [|e l IH]; intros rm infos0 s Hnd Hfresh Hfiles.
  - exists [], infos0, s. cbn. rewrite app_nil_r. split; [done|]. split; [constructor|].
    split; [done|]. intros e size He. by apply elem_of_nil in He.
  - apply NoDup_cons in Hnd as [He Hnd].
    assert (Hother : forall e', e' ∈ l ->
              join (entry_path e) "package.json" <> join (entry_path e') "package.json").
    { intros e' He' Heq%join_inj. apply He. rewrite Heq. apply list_elem_of_fmap. eauto. }
    destruct (Hfiles e) as [contents Hfile]; [by left|].
    rewrite for_of_cons, (mutate_step_file deps _ e s contents Hfile). cbn [fst snd].
    rewrite map_set_fresh by (apply Hfresh; by left).
    edestruct (IH (rm ++ [(entry_path e,
                           {| restore_path := join (entry_path e) "package.json";
                              restore_contents := Js.utf8_decode contents |})])
                 (infos0 ++ [{| entry_path := entry_path e;
                                entry_pJson := hijacked deps (entry_pJson e) |}])
                 {| disk := <[join (entry_path e) "package.json"
                              := File (JSON_stringify env (hijacked deps (entry_pJson e)))]>
                              (disk s);
                    world := world s;
                    trace := (trace s ++ [EvReadFile (join (entry_path e) "package.json")])
                             ++ [EvWriteFile (join (entry_path e) "package.json")
                                   (JSON_stringify env (hijacked deps (entry_pJson e)))] |})
      as (rs & infos' & s' & Hrun & Hall & Hframe & Hkept).
    + exact Hnd.
    + intros e' He'. rewrite fmap_app, elem_of_app. intros [Hin|Hin].
      * apply (Hfresh e'); [by right|done].
      * cbn in Hin. apply list_elem_of_singleton in Hin. apply He.
        rewrite <- Hin. apply list_elem_of_fmap. eauto.
    + intros e' He'. destruct (Hfiles e') as [c Hc]; [by right|]. exists c. cbn.
      rewrite lookup_insert_ne; [done|]. by apply Hother.
    + cbn [disk] in Hframe.
      eexists (_ :: rs), infos', s'. rewrite Hrun, <- app_assoc. split; [done|].
      split; [|split].
      * constructor; [split; [by left|]; split; [done|]; by exists contents|].
        eapply Forall2_impl; [exact Hall|]. intros e' r (He' & Hp & c & Hc & Hr).
        split; [by right|]. split; [done|]. exists c. split; [|done].
        cbn in Hc. rewrite lookup_insert_ne in Hc; [done|]. by apply Hother.
      * intros k Hk. rewrite Hframe by (intros e' He'; apply Hk; by right).
        apply lookup_insert_ne. intros Heq. by apply (Hk e); [left|].
      * intros e' size He'. apply elem_of_cons in He' as [->|He']; [|by apply Hkept].
        rewrite Hframe by (intros e' He'; by apply Hother).
        by rewrite lookup_insert_eq.
Qed.

Lemma Forall2_elem_l {A B} (P : A -> B -> Prop) l k x :
  Forall2 P l k -> x ∈ l -> exists y, y ∈ k /\ P x y.
Proof.
  induction 1 as [|a b l k Hab _ IH]; intros Hx; [by apply elem_of_nil in Hx|].
  apply elem_of_cons in Hx as [->|Hx].
  - exists b. split; [by left|done].
  - destruct (IH Hx) as (y & Hy & HP). exists y. split; [by right|done].
Qed.

Lemma Forall2_elem_r {A B} (P : A -> B -> Prop) l k y :
  Forall2 P l k -> y ∈ k -> exists x, x ∈ l /\ P x y.
Proof.
  induction 1 as [|a b l k Hab _ IH]; intros Hy; [by apply elem_of_nil in Hy|].
  apply elem_of_cons in Hy as [->|Hy].
  - exists a. split; [by left|done].
  - destruct (IH Hy) as (x & Hx & HP). exists x. split; [by right|done].
Qed.

Lemma Forall2_fmap_eq {A B C} (f : A -> C) (g : B -> C) l k :
  Forall2 (fun a b => g b = f a) l k -> g <$> k = f <$> l.
Proof. induction 1 as [|a b l k Hab _ IH]; [done|]. cbn. by rewrite Hab, IH. Qed.

(** PASS 4 writes each captured text at its path, in order. *)
Lemma restore_all_run (rs : list Restore) :
  forall later : State World,
    (forall r size, r ∈ rs -> disk later !! restore_path r <> Some (Dir size)) ->
    exists s2,
      for_of rs (fun (_ : unit) r => restore r) tt later = (Ok tt, s2)
      /\ disk s2 = foldl (fun d r => <[restore_path r := File (restore_contents r)]> d)
                         (disk later) rs.
Proof.
  induction rs as [|r rs IH]; intros later Hfiles; [by exists later|].
  rewrite for_of_cons. unfold restore at 1.
  rewrite writeFile_ok by (intros size; apply Hfiles; by left).
  edestruct IH as (s2 & Hrun & Hdisk); [|exists s2; split; [exact Hrun|exact Hdisk]].
  intros r' size Hr'. cbn.
  destruct (decide (restore_path r = restore_path r')) as [->|Hne].
  - by rewrite lookup_insert_eq.
  - rewrite lookup_insert_ne by done. apply Hfiles. by right.
Qed.

Lemma foldl_write_other (rs : list Restore) (d : Disk) k :
  (forall r, r ∈ rs -> restore_path r <> k) ->
  foldl (fun d r => <[restore_path r := File (restore_contents r)]> d) d rs !! k = d !! k.
Proof.
  revert d. induction rs as [|r rs IH]; intros d Hk; [done|]. cbn.
  rewrite IH by (intros r' Hr'; apply Hk; by right).
  apply lookup_insert_ne, Hk. by left.
Qed.

Lemma foldl_write_at (rs : list Restore) (d : Disk) r :
  NoDup (restore_path <$> rs) -> r ∈ rs ->
  foldl (fun d r => <[restore_path r := File (restore_contents r)]> d) d rs
    !! restore_path r = Some (File (restore_contents r)).
Proof.
  revert d. induction rs as [|r0 rs IH]; intros d Hnd Hr; [by apply elem_of_nil in Hr|].
  cbn in Hnd. apply NoDup_cons in Hnd as [Hr0 Hnd]. cbn.
  apply elem_of_cons in Hr as [->|Hr]; [|by apply IH].
  rewrite foldl_write_other; [apply lookup_insert_eq|].
  intros r' Hr' Heq. apply Hr0. rewrite <- Heq. apply list_elem_of_fmap. eauto.
Qed.

(** X17. For packages in distinct directories whose manifests are files,
    PASS 2 succeeds, and PASS 4, run on the state PASS 2 left, puts at
    every manifest the decoded text of its original bytes and leaves
    every other path as it was before PASS 2: when the original bytes of
    every manifest are well-formed UTF-8 the whole disk is as it was
    before PASS 2. Run in any later state in which the manifests are not
    directories, the same restores write the same texts and touch no
    other path. *)
Theorem mutate_then_restore_all deps packageInfos (s : State World) :
  NoDup (entry_path <$> packageInfos) ->
  (forall e, e ∈ packageInfos ->
     exists contents, disk s !! join (entry_path e) "package.json" = Some (File contents)) ->
  exists restoreMap packageInfos' s1 s2,
    mutate env deps packageInfos s = (Ok (restoreMap, packageInfos'), s1)
    /\ restore_all restoreMap s1 = (Ok tt, s2)
    /\ (forall e contents,
          e ∈ packageInfos ->
          disk s !! join (entry_path e) "package.json" = Some (File contents) ->
          disk s2 !! join (entry_path e) "package.json"
          = Some (File (Js.utf8_decode contents)))
    /\ (forall k, (forall e, e ∈ packageInfos -> k <> join (entry_path e) "package.json") ->
          disk s2 !! k = disk s !! k)
    /\ ((forall e contents,
           e ∈ packageInfos ->
           disk s !! join (entry_path e) "package.json" = Some (File contents) ->
           Js.valid_utf8 contents = true) ->
        disk s2 = disk s)
    /\ forall later : State World,
         (forall e size, e ∈ packageInfos ->
            disk later !! join (entry_path e) "package.json" <> Some (Dir size)) ->
         exists s3,
           restore_all restoreMap later = (Ok tt, s3)
           /\ (forall e contents,
                 e ∈ packageInfos ->
                 disk s !! join (entry_path e) "package.json" = Some (File contents) ->
                 disk s3 !! join (entry_path e) "package.json"
                 = Some (File (Js.utf8_decode contents)))
           /\ (forall k, (forall e, e ∈ packageInfos ->
                            k <> join (entry_path e) "package.json") ->
                 disk s3 !! k = disk later !! k).
Proof.
  intros Hnd Hfiles.
  destruct (mutate_from deps packageInfos [] [] s Hnd)
    as (rs & infos' & s1 & Hrun & Hall & Hframe & Hkept);
    [intros e _ Hin; by apply elem_of_nil in Hin|exact Hfiles|].
  assert (Hpaths : restore_path <$> rs.*2
                   = (fun p => join p "package.json") <$> (entry_path <$> packageInfos)).
  { rewrite <- !list_fmap_compose.
    apply (Forall2_fmap_eq (fun e => join (entry_path e) "package.json")
             (fun r : string * Restore => restore_path r.2)).
    eapply Forall2_impl; [exact Hall|]. by intros e r (_ & ? & _). }
  assert (Hnd' : NoDup (restore_path <$> rs.*2)).
  { rewrite Hpaths. apply NoDup_fmap_2; [|done]. intros p q. apply join_inj. }
  assert (Hlater : forall later : State World,
            (forall e size, e ∈ packageInfos ->
               disk later !! join (entry_path e) "package.json" <> Some (Dir size)) ->
            exists s3,
              restore_all rs later = (Ok tt, s3)
              /\ (forall e contents,
                    e ∈ packageInfos ->
                    disk s !! join (entry_path e) "package.json" = Some (File contents) ->
                    disk s3 !! join (entry_path e) "package.json"
                    = Some (File (Js.utf8_decode contents)))
              /\ (forall k, (forall e, e ∈ packageInfos ->
                               k <> join (entry_path e) "package.json") ->
                    disk s3 !! k = disk later !! k)).
  { intros later Hnodir.
    destruct (restore_all_run (rs.*2) later) as (s3 & Hrestore & Hdisk).
    { intros r size Hr. apply list_elem_of_fmap in Hr as (pr & -> & Hpr).
      destruct (Forall2_elem_r _ _ _ _ Hall Hpr) as (e & He & _ & -> & _).
      by apply Hnodir. }
    exists s3. split; [exact Hrestore|]. rewrite Hdisk. split.
    - intros e contents He Hfile.
      destruct (Forall2_elem_l _ _ _ _ Hall He) as (pr & Hpr & _ & Hp & c & Hc & Hr).
      rewrite Hfile in Hc. injection Hc as <-. rewrite <- Hr, <- Hp.
      apply foldl_write_at; [done|]. apply list_elem_of_fmap. eauto.
    - intros k Hk. apply foldl_write_other. intros r Hr.
      apply list_elem_of_fmap in Hr as (pr & -> & Hpr).
      destruct (Forall2_elem_r _ _ _ _ Hall Hpr) as (e & He & _ & -> & _).
      intros Heq. by apply (Hk e He). }
  destruct (Hlater s1 Hkept) as (s2 & Hrestore & Hback & Hrest).
  exists rs, infos', s1, s2. split; [exact Hrun|]. split; [exact Hrestore|].
  split; [exact Hback|]. split; [|split; [|exact Hlater]].
  - intros k Hk. by rewrite (Hrest k Hk), (Hframe k Hk).
  - intros Hvalid. apply map_eq. intros k.
    destruct (decide (k ∈ (fun e => join (entry_path e) "package.json") <$> packageInfos))
      as [Hin|Hout].
    + apply list_elem_of_fmap in Hin as (e & -> & He).
      destruct (Hfiles e He) as [contents Hfile].
      rewrite (Hback e contents He Hfile), Hfile.
      by rewrite (utf8_decode_valid _ (Hvalid e contents He Hfile)).
    + assert (Hk : forall e, e ∈ packageInfos -> k <> join (entry_path e) "package.json").
      { intros e He ->. apply Hout. apply list_elem_of_fmap. eauto. }
      by rewrite (Hrest k Hk), (Hframe k Hk).
Qed.

(** X18. A directory listed twice is rewritten twice, and the second
    restore, which replaces the first in the map, holds the text read
    back from the first rewrite: after PASS 4 the manifest is the
    rewritten one, not the original. What is read back is the decoded
    text of what [JSON.stringify] returned, which is that text itself
    when it is well-formed. *)
Theorem mutate_same_directory_twice deps p pJson1 pJson2 (s : State World) original :
  disk s !! join p "package.json" = Some (File original) ->
  exists restoreMap packageInfos' s1 s2,
    mutate env deps [{| entry_path := p; entry_pJson := pJson1 |};
                     {| entry_path := p; entry_pJson := pJson2 |}] s
    = (Ok (restoreMap, packageInfos'), s1)
    /\ restore_all restoreMap s1 = (Ok tt, s2)
    /\ disk s2 !! join p "package.json"
       = Some (File (Js.utf8_decode (JSON_stringify env (hijacked deps pJson1))))
    /\ (Js.valid_utf8 (JSON_stringify env (hijacked deps pJson1)) = true ->
        disk s2 !! join p "package.json"
        = Some (File (JSON_stringify env (hijacked deps pJson1)))).
Proof.
  intros Hfile. unfold mutate. rewrite for_of_cons.
  rewrite (mutate_step_file deps _ {| entry_path := p; entry_pJson := pJson1 |} s
             original Hfile).
  cbn [fst snd entry_path entry_pJson].
  rewrite for_of_cons.
  rewrite (mutate_step_file deps _ {| entry_path := p; entry_pJson := pJson2 |} _
             (JSON_stringify env (hijacked deps pJson1)))
    by (cbn; apply lookup_insert_eq).
  cbn [fst snd entry_path entry_pJson for_of map_set].
  rewrite bool_decide_eq_true_2 by done.
  eexists _, _, _, _. split; [reflexivity|].
  unfold restore_all. cbn [fmap list_fmap snd]. rewrite for_of_cons. unfold restore.
  cbn [restore_path restore_contents].
  rewrite writeFile_ok by (intros size; cbn; by rewrite lookup_insert_eq).
  split; [reflexivity|]. cbn. split; [apply lookup_insert_eq|].
  intros Hvalid. by rewrite lookup_insert_eq, (utf8_decode_valid _ Hvalid).
Qed.

(** ** PASS 5 *)

(** One upload task catches what [fetch] throws and appends one result. *)
Lemma upload_task_appends credentials deps uploadResults p (s : State World) :
  exists r s',
    upload_task env credentials deps uploadResults p s = (Ok (uploadResults ++ [r]), s')
    /\ disk s' = disk s
    /\ result_pJson r = packed_pJson p.
Proof.
  unfold upload_task, try_catch, call_fetch, mbind, M_bind, bind, mret, M_ret, ret.
  destruct (fetch env _ _ _ (world s)) as [[resp|e] w]; cbn; [|by eexists _, _].
  destruct (parseUploadResponse env (text resp)) as [body|]; cbn; [|by eexists _, _].
  destruct (if (status resp =? 409)%nat then body_sha256 body else None) as [existing|].
  - case_bool_decide; by eexists _, _.
  - destruct (ok resp); by eexists _, _.
Qed.

(** X19. One upload task never throws and appends exactly one result. It
    reports [success] only when the request was answered with a 2xx
    status and a body of the expected shape, [exists] only when the answer
    was a 409 whose [sha256] equals the digest of the packed archive, and
    every [error] carries a message. The disk is not touched. *)
Theorem upload_task_sound credentials deps uploadResults p (s : State World) :
  exists r s',
    upload_task env credentials deps uploadResults p s = (Ok (uploadResults ++ [r]), s')
    /\ disk s' = disk s
    /\ result_pJson r = packed_pJson p
    /\ (result_status r = success ->
        exists resp w body,
          fetch env (result_packageUrl r)
            {| form_filename := filename (packResult p);
               form_tarball := file (packResult p);
               form_sha256 := sha256 (packResult p) |}
            ("Bearer " +:+ token credentials) (world s) = (Ok resp, w)
          /\ parseUploadResponse env (text resp) = Some body
          /\ ok resp = true)
    /\ (result_status r = exists_ ->
        exists resp w body,
          fetch env (result_packageUrl r)
            {| form_filename := filename (packResult p);
               form_tarball := file (packResult p);
               form_sha256 := sha256 (packResult p) |}
            ("Bearer " +:+ token credentials) (world s) = (Ok resp, w)
          /\ parseUploadResponse env (text resp) = Some body
          /\ status resp = 409
          /\ body_sha256 body = Some (sha256 (packResult p)))
    /\ (result_status r = error -> is_Some (errorMessage r)).
Proof.
  unfold upload_task, try_catch, call_fetch, mbind, M_bind, bind, mret, M_ret, ret.
  destruct (fetch env _ _ _ (world s)) as [[resp|e] w] eqn:Hfetch; cbn.
  2: { eexists _, _. split; [reflexivity|]. cbn. repeat split; try done; by eexists. }
  destruct (parseUploadResponse env (text resp)) as [body|] eqn:Hparse; cbn.
  2: { eexists _, _. split; [reflexivity|]. cbn. repeat split; try done; by eexists. }
  destruct (status resp =? 409)%nat eqn:H409.
  - destruct (body_sha256 body) as [existing|] eqn:Hsha.
    + case_bool_decide as Heq; cbn; eexists _, _; (split; [reflexivity|]); cbn;
        repeat split; try done; try by eexists.
      intros _. eexists _, _, _. repeat split; try done.
      * by apply Nat.eqb_eq.
      * by rewrite Hsha, Heq.
    + destruct (ok resp) eqn:Hok; cbn; eexists _, _; (split; [reflexivity|]); cbn;
        repeat split; try done; try by eexists.
      intros _. by eexists _, _, _.
  - destruct (ok resp) eqn:Hok; cbn; eexists _, _; (split; [reflexivity|]); cbn;
      repeat split; try done; try by eexists.
    intros _. by eexists _, _, _.
Qed.

(** X20. PASS 5 never throws, whatever the network does: it returns one
    result per packed package, in the order of the packages, and leaves
    the disk alone. *)
Theorem upload_all_one_result_each credentials deps packedPackages (s : State World) :
  exists uploadResults s',
    upload_all env credentials deps packedPackages s = (Ok uploadResults, s')
    /\ result_pJson <$> uploadResults = packed_pJson <$> packedPackages
    /\ disk s' = disk s.
Proof.
  unfold upload_all.
  assert (H : forall acc (s : State World),
             exists new s',
               for_of packedPackages (upload_task env credentials deps) acc s
               = (Ok (acc ++ new), s')
               /\ result_pJson <$> new = packed_pJson <$> packedPackages
               /\ disk s' = disk s).
  { induction packedPackages as [|p l IH]; intros acc s0.
    - exists [], s0. cbn. by rewrite app_nil_r.
    - rewrite for_of_cons.
      destruct (upload_task_appends credentials deps acc p s0)
        as (r & s1 & Hrun & Hd & Hp).
      rewrite Hrun. destruct (IH (acc ++ [r]) s1) as (new & s' & Hrest & Hmap & Hd').
      exists (r :: new), s'. rewrite Hrest, <- app_assoc. cbn.
      by rewrite Hp, Hmap, Hd', Hd. }
  destruct (H [] s) as (new & s' & Hrun & Hmap & Hd). by exists new, s'.
Qed.

End CliMore.

(** * More example runs *)
Section MoreRuns.
Import Cli CliExamples.

Lemma validatePackageParams_display_name_witness :
  Server.GithubUsername "alice" = true
  /\ Server.valid_coordinate ServerExamples.scoped_b = true
  /\ Server.validatePackageParams "alice" "@a/b@1"
     = Server.ParamsValid "alice" ServerExamples.scoped_b.
Proof.
  assert (Hu : Server.GithubUsername "alice" = true) by reflexivity.
  assert (Hc : Server.valid_coordinate ServerExamples.scoped_b = true) by reflexivity.
  split; [exact Hu|]. split; [exact Hc|].
  exact (validatePackageParams_display_name "alice" ServerExamples.scoped_b Hu Hc).
Defined.

Lemma validatePackageParams_ignores_junk_witness :
  Server.GithubUsername "alice" = true
  /\ Server.valid_coordinate ServerExamples.left_pad = true
  /\ Server.validatePackageParams "alice" "left-pad@abc1234@9.9.9/../x"
     = Server.ParamsValid "alice" ServerExamples.left_pad.
Proof.
  assert (Hu : Server.GithubUsername "alice" = true) by reflexivity.
  assert (Hc : Server.valid_coordinate ServerExamples.left_pad = true) by reflexivity.
  split; [exact Hu|]. split; [exact Hc|].
  exact (validatePackageParams_ignores_junk "alice" ServerExamples.left_pad "9.9.9/../x" Hu Hc).
Defined.

Lemma key_of_inj_witness :
  Server.GithubUsername "alice" = true
  /\ Server.valid_coordinate ServerExamples.left_pad = true
  /\ Server.key_of "alice" ServerExamples.left_pad = ServerExamples.left_pad_key
  /\ ("alice" = "alice" /\ ServerExamples.left_pad = ServerExamples.left_pad).
Proof.
  assert (Hu : Server.GithubUsername "alice" = true) by reflexivity.
  assert (Hc : Server.valid_coordinate ServerExamples.left_pad = true) by reflexivity.
  split; [exact Hu|]. split; [exact Hc|]. split; [reflexivity|].
  exact (key_of_inj "alice" "alice" ServerExamples.left_pad ServerExamples.left_pad
           Hu Hu Hc Hc eq_refl).
Defined.

Lemma getCredentials_parses_or_removes_witness :
  let broken : State unit :=
    {| disk := {[ credentials_file := File "{" ]}; world := tt; trace := [] |} in
  disk broken !! credentials_file = Some (File "{")
  /\ exists s', getCredentials (env all_well) broken = (Ok None, s') /\ disk s' = ∅.
Proof.
  intros broken.
  assert (Hfile : disk broken !! credentialPath (env all_well) = Some (File "{"))
    by reflexivity.
  split; [exact Hfile|].
  destruct (getCredentials_parses_or_removes (env all_well) broken "{" Hfile)
    as (s' & Hrun & Hdisk); [discriminate|].
  exists s'. split; [exact Hrun|]. rewrite Hdisk. reflexivity.
Defined.

Lemma publish_explicit_version_witness :
  let input := {| patterns := ["packages/*"]; packer := npm;
                  input_version := Some "nightly" |} in
  getCredentials (env no_git) start = (Ok (Some alice), after_credentials)
  /\ publish (env no_git) input start
     = publish_packages (env no_git) alice input
         ["/ws/packages/a"; "/ws/packages/b"; "/ws/packages/c"] "nightly"
         after_credentials.
Proof.
  intros input.
  assert (Hcred : getCredentials (env no_git) start = (Ok (Some alice), after_credentials))
    by reflexivity.
  split; [exact Hcred|].
  rewrite (publish_explicit_version (env no_git) input start after_credentials alice
             "nightly" eq_refl ltac:(discriminate) Hcred).
  reflexivity.
Defined.

Lemma pack_returns_archive_witness :
  exists s',
    pack (env all_well) pack_b start
    = (Ok {| filename := "/ws/packages/b/b-1.0.0.tgz";
             file := archive manifest_b;
             sha256 := digest (archive manifest_b);
             size := Z.of_nat (String.length (archive manifest_b));
             output := "" |}, s')
    /\ disk s' = workspace.
Proof.
  destruct (pack_returns_archive (env all_well) pack_b start
              {| exitCode := Some 0%Z; stdout := ""; stderr := "" |}
              (<["/ws/packages/b/b-1.0.0.tgz" := File (archive manifest_b)]> workspace)
              tt (archive manifest_b) eq_refl eq_refl eq_refl) as (s' & Hrun & Hdisk).
  exists s'. split; [exact Hrun|]. rewrite Hdisk. cbn [keepFile pack_b].
  apply map_eq. intros k. vm_compute (join _ _).
  destruct (decide (k = "/ws/packages/b/b-1.0.0.tgz")) as [->|Hne].
  - rewrite lookup_delete_eq. reflexivity.
  - by rewrite lookup_delete_ne, lookup_insert_ne.
Defined.

Lemma identifier_of_names_witness :
  identifier_of (plain "@acme/ui" "1.0.0") = "acme-ui-1.0.0"
  /\ identifier_of (plain "left-pad" "1.3.0") = "left-pad-1.3.0".
Proof.
  split.
  - exact (proj1 (identifier_of_names (plain "@acme/ui" "1.0.0") "acme" "ui" "1.0.0" eq_refl)
             eq_refl eq_refl).
  - exact (proj2 (identifier_of_names (plain "left-pad" "1.3.0") "" "left-pad" "1.3.0" eq_refl)
             eq_refl eq_refl eq_refl).
Defined.

Lemma hijackDeps_exact_witness :
  ("b" ∉ Object_prototype)
  /\ exists new,
       hijackDeps deps (Some {[ "b" := "workspace:*"; "lodash" := "^4.17.21" ]}) = Some new
       /\ new !! "b" = Some url_b.
Proof.
  assert (Hb : "b" ∉ Object_prototype) by (apply (bool_decide_unpack _); exact I).
  split; [exact Hb|].
  destruct (hijackDeps_exact deps {[ "b" := "workspace:*"; "lodash" := "^4.17.21" ]} "b" Hb)
    as (new & Hnew & Hlookup).
  exists new. split; [exact Hnew|]. rewrite Hlookup. reflexivity.
Defined.

Lemma hijackDeps_inherited_name_witness :
  let urls : Dict := {[ "constructor" := "https://pkg.rx2.dev/alice/constructor@4f2a9c1" ]} in
  let old : Dict := {[ "lodash" := "^4.17.21" ]} in
  ("constructor" ∈ Object_prototype)
  /\ old !! "constructor" = None
  /\ exists new,
       hijackDeps urls (Some {[ "lodash" := "^4.17.21" ]}) = Some new
       /\ new !! "constructor" = Some "https://pkg.rx2.dev/alice/constructor@4f2a9c1".
Proof.
  intros urls old.
  assert (Hin : "constructor" ∈ Object_prototype) by left.
  split; [exact Hin|]. split; [reflexivity|].
  exact (hijackDeps_inherited_name urls {[ "lodash" := "^4.17.21" ]} "constructor" _
           Hin ltac:(discriminate) eq_refl).
Defined.

Lemma publish_packages_nothing_to_publish_witness :
  exists s',
    publish_packages (env all_well) alice all_packages ["/ws/docs"; "/ws/packages"] "4f2a9c1"
      start = (Ok NoPackagesToPublish, s')
    /\ disk s' = workspace
    /\ trace s'
       = [EvReadFile credentials_file; EvGetAuthenticated "alice-token";
          EvReadFile "/ws/docs/package.json";
          EvLog Warn "Skipping /ws/docs: package.json not found";
          EvReadFile "/ws/packages/package.json";
          EvLog Warn "Skipping /ws/packages: package.json not found";
          EvLog Err "No valid packages found to publish";
          EvLog Outro "No packages to publish"].
Proof.
  assert (Hu : getUsername (env all_well) start
               = (Ok "alice",
                  {| disk := workspace; world := tt;
                     trace := [EvReadFile credentials_file; EvGetAuthenticated "alice-token"] |}))
    by reflexivity.
  destruct (publish_packages_nothing_to_publish (env all_well) alice all_packages
              ["/ws/docs"; "/ws/packages"] "4f2a9c1" start _ "alice" Hu)
    as (s' & Hrun & Hdisk & _ & Htrace & _).
  - intros p contents Hin Hfile.
    apply elem_of_cons in Hin as [->|Hin]; [vm_compute in Hfile; discriminate|].
    apply list_elem_of_singleton in Hin as ->. vm_compute in Hfile. discriminate.
  - exists s'. split; [exact Hrun|]. split; [exact Hdisk|]. exact Htrace.
Defined.

Lemma mutate_then_restore_all_witness :
  let infos := [{| entry_path := "/ws/packages/a"; entry_pJson := pkg_a |};
                {| entry_path := "/ws/packages/c"; entry_pJson := pkg_c |}] in
  NoDup (entry_path <$> infos)
  /\ exists restoreMap packageInfos' s1 s2,
       mutate (env all_well) deps infos start = (Ok (restoreMap, packageInfos'), s1)
       /\ disk s1 !! "/ws/packages/a/package.json" = Some (File rewritten_a)
       /\ restore_all restoreMap s1 = (Ok tt, s2)
       /\ disk s2 = disk start.
Proof.
  intros infos.
  assert (Hnd : NoDup (entry_path <$> infos)) by (apply (bool_decide_unpack _); exact I).
  split; [exact Hnd|].
  destruct (mutate_then_restore_all (env all_well) deps infos start Hnd)
    as (rm & infos' & s1 & s2 & Hrun & Hrestore & _ & _ & Hsame & _).
  { intros e He. apply elem_of_cons in He as [->|He]; [by eexists|].
    apply list_elem_of_singleton in He as ->. by eexists. }
  exists rm, infos', s1, s2. split; [exact Hrun|]. split; [|split; [exact Hrestore|]].
  - vm_compute in Hrun. injection Hrun as _ _ <-. reflexivity.
  - apply Hsame. intros e contents He Hfile.
    apply elem_of_cons in He as [->|He].
    + vm_compute in Hfile. injection Hfile as <-. reflexivity.
    + apply list_elem_of_singleton in He as ->.
      vm_compute in Hfile. injection Hfile as <-. reflexivity.
Defined.

Lemma mutate_same_directory_twice_witness :
  disk start !! join "/ws/packages/a" "package.json" = Some (File manifest_a)
  /\ exists restoreMap packageInfos' s1 s2,
       mutate (env all_well) deps
         [{| entry_path := "/ws/packages/a"; entry_pJson := pkg_a |};
          {| entry_path := "/ws/packages/a"; entry_pJson := pkg_a |}] start
       = (Ok (restoreMap, packageInfos'), s1)
       /\ restore_all restoreMap s1 = (Ok tt, s2)
       /\ disk s2 !! join "/ws/packages/a" "package.json" = Some (File rewritten_a).
Proof.
  assert (Hfile : disk start !! join "/ws/packages/a" "package.json"
                  = Some (File manifest_a)) by reflexivity.
  split; [exact Hfile|].
  destruct (mutate_same_directory_twice (env all_well) deps "/ws/packages/a" pkg_a pkg_a
              start manifest_a Hfile)
    as (rm & infos' & s1 & s2 & Hrun & Hrestore & _ & Hsame).
  exists rm, infos', s1, s2. split; [exact Hrun|]. split; [exact Hrestore|].
  exact (Hsame eq_refl).
Defined.


Lemma upload_task_sound_witness :
  let packed := {| packed_path := "/ws/packages/b"; packed_pJson := pkg_b;
                   packed_identifier := "b-1.0.0";
                   packResult := {| filename := "/ws/packages/b/b-1.0.0.tgz";
                                    file := archive rewritten_b;
                                    sha256 := digest (archive rewritten_b);
                                    size := 4; output := "" |} |} in
  exists r s',
    upload_task (env all_well) alice deps [] packed start = (Ok [r], s')
    /\ result_status r = success
    /\ result_packageUrl r = url_b
    /\ exists resp w body,
         fetch (env all_well) url_b
           {| form_filename := "/ws/packages/b/b-1.0.0.tgz";
              form_tarball := archive rewritten_b;
              form_sha256 := digest (archive rewritten_b) |}
           "Bearer alice-token" tt = (Ok resp, w)
         /\ parseUploadResponse (env all_well) (text resp) = Some body
         /\ ok resp = true.
Proof.
  intros packed.
  destruct (upload_task_sound (env all_well) alice deps [] packed start)
    as (r & s' & Hrun & _ & _ & Hsuccess & _).
  assert (Hr : result_status r = success /\ result_packageUrl r = url_b).
  { pose proof Hrun as Hc. vm_compute in Hc. by injection Hc as <- _. }
  destruct Hr as [Hstatus Hurl].
  exists r, s'. split; [exact Hrun|]. split; [exact Hstatus|]. split; [exact Hurl|].
  rewrite <- Hurl. exact (Hsuccess Hstatus).
Defined.

End MoreRuns.
